(** * mini-lang: a shallow embedding of the lexer, parser and evaluator

    The Python sources are [interpreter/lexer.py], [interpreter/parser.py],
    [interpreter/evaluation.py] and [interpreter/builtins.py].

    Conventions of the model:
    - a Python [str] of the source text is a Rocq [string] (ASCII text; on
      ASCII characters [str.isdigit] and [str.upper] are the ASCII ones);
      the content of a string literal is a list of Unicode code points
      ([list Z]), since escapes such as [\U0001F600] leave ASCII;
    - a Python [float] is a primitive binary64 [PrimFloat.float]; conversions
      and exact quotients are rounded to nearest-even through [SpecFloat];
    - Python exceptions are the constructors of [exn];
    - the operand stack is a Python list: bottom first, [append] and [pop]
      work at its end;
    - every recursive function takes a fuel argument; [OutOfFuel] is the
      outcome "did not finish within the given number of calls". *)

From Stdlib Require Import ZArith Bool Ascii String Floats Lia.
From stdpp Require Import base list gmap strings pretty.

Local Open Scope Z_scope.
#[local] Set Warnings "-register-all".

(** ** Python exceptions *)

Inductive exn :=
| LexerError (msg : string)
| ParserError (msg : string)
| RunTimeError (msg : string)
| TypeError (msg : string)
| IndexError (msg : string)
| ValueError (msg : string)
| ZeroDivisionError (msg : string)
| OverflowError (msg : string)
| MemoryError (msg : string)
(** Python's printf-style formatting [str % x] is outside this model. *)
| Unmodelled (what : string).

(** ** Binary64 helpers (Python's [float]) *)

Module Py.

(** Round the exact rational [sign * num / den] ([num >= 0], [den > 0]) to the
    nearest binary64, ties to even: CPython's [float(str)] and
    [int.__truediv__] are correctly rounded. *)
Definition round_ratio (neg : bool) (num den : Z) : float :=
  if Z.eqb num 0 then (if neg then neg_zero else zero)
  else
    let '(q, e, l) := SFdiv_core_binary prec emax num 0 den 0 in
    SF2Prim (binary_round_aux prec emax neg q e l).

(** [float(n)] for a Python [int]: [OverflowError] when it does not fit. *)
Definition float_of_int (n : Z) : exn + float :=
  let f := round_ratio (Z.ltb n 0) (Z.abs n) 1 in
  if is_infinity f then inl (OverflowError "int too large to convert to float")
  else inr f.

(** [int / int]: CPython's [long_true_divide]. *)
Definition int_truediv (b a : Z) : exn + float :=
  if Z.eqb a 0 then inl (ZeroDivisionError "division by zero")
  else
    let f := round_ratio (xorb (Z.ltb b 0) (Z.ltb a 0)) (Z.abs b) (Z.abs a) in
    if is_infinity f
    then inl (OverflowError "integer division result too large for a float")
    else inr f.

(** [math.fmod] on binary64: exact, with the sign of the dividend. *)
Definition fmod (x y : float) : float :=
  match Prim2SF x, Prim2SF y with
  | S754_nan, _ | _, S754_nan => nan
  | S754_infinity _, _ => nan
  | _, S754_zero _ => nan
  | S754_zero _, _ => x
  | S754_finite _ _ _, S754_infinity _ => x
  | S754_finite sx mx ex, S754_finite _ my ey =>
      let e := Z.min ex ey in
      let X := Z.shiftl (Zpos mx) (ex - e) in
      let Y := Z.shiftl (Zpos my) (ey - e) in
      SF2Prim (binary_normalize prec emax (cond_Zopp sx (Z.modulo X Y)) e sx)
  end.

(** [float.__mod__] (CPython's [float_rem]). *)
Definition float_rem (vx wx : float) : exn + float :=
  if PrimFloat.eqb wx zero then inl (ZeroDivisionError "float modulo")
  else
    let m := fmod vx wx in
    if negb (PrimFloat.eqb m zero) then
      (if Bool.eqb (PrimFloat.ltb wx zero) (PrimFloat.ltb m zero) then inr m
       else inr (PrimFloat.add m wx))
    else inr (if get_sign wx then neg_zero else zero).

(** [float.__truediv__]. *)
Definition float_div (vx wx : float) : exn + float :=
  if PrimFloat.eqb wx zero then inl (ZeroDivisionError "float division by zero")
  else inr (PrimFloat.div vx wx).

End Py.

(** ** Tokens ([lexer.py]) *)

(** The payload of a [LITERAL] token: Python [int], [float] or [str]. *)
Inductive lit :=
| LInt (n : Z)
| LFloat (f : float)
| LStr (s : list Z).

Inductive TokenType :=
| LITERAL | IDENTIFIER | NEWLINE | PARENTHESIS_L | PARENTHESIS_R | ASSIGNMENT.

(** [Token(type, value)], with the payload each type carries in the lexer:
    a literal's value, an identifier's name, or a bracket character. *)
Inductive Token :=
| TLiteral (l : lit)
| TIdentifier (name : string)
| TNewline
| TParenL (c : ascii)
| TParenR (c : ascii)
| TAssign.

Definition token_type (t : Token) : TokenType :=
  match t with
  | TLiteral _ => LITERAL
  | TIdentifier _ => IDENTIFIER
  | TNewline => NEWLINE
  | TParenL _ => PARENTHESIS_L
  | TParenR _ => PARENTHESIS_R
  | TAssign => ASSIGNMENT
  end.

(** ** AST ([parser.py]) *)

(** [Literal], [Identifier], [Quot] and [List] nodes; an [Expr] is its list
    of atoms. *)
Inductive atom :=
| Literal (content : lit)
| Identifier (name : string)
| Quot (e : list atom)
| List (items : list atom).

Abbreviation Expr := (list atom).

Inductive stmt :=
| Decl (word : string) (e : Expr)
| SExpr (e : Expr).

Abbreviation Program := (list stmt).

(** ** Runtime values and frames ([evaluation.py]) *)

(** What the operand stack holds: the [content] of a literal, a [Quot] node,
    or a Python list (the stack of a finished [List] block). *)
Inductive val :=
| VInt (n : Z)
| VFloat (f : float)
| VStr (s : list Z)
| VQuot (e : Expr)
| VSeq (vs : list val).

Definition value_of_lit (l : lit) : val :=
  match l with
  | LInt n => VInt n
  | LFloat f => VFloat f
  | LStr s => VStr s
  end.

(** A [RunTime] object: its [parent] is not a field here; the evaluator
    receives the scopes of the parent chain (immediate parent first), which
    a child never writes. *)
Record RunTime := mk_runtime {
  stack : list val;
  scope : gmap string Expr;
  recursion_depth : Z
}.

Definition max_recursion_depth : Z := 100.

(** [RunTime()]: empty stack, empty scope, counter 0. *)
Definition new_runtime : RunTime := mk_runtime [] ∅ 0.

Definition set_stack (st : list val) (rt : RunTime) : RunTime :=
  mk_runtime st (scope rt) (recursion_depth rt).
Definition set_depth (d : Z) (rt : RunTime) : RunTime :=
  mk_runtime (stack rt) (scope rt) d.
Definition push (v : val) (rt : RunTime) : RunTime :=
  set_stack (stack rt ++ [v]) rt.

(** [list.pop()]: the last element, or [IndexError] on an empty list. *)
Definition pop (st : list val) : exn + (list val * val) :=
  match rev st with
  | [] => inl (IndexError "pop from empty list")
  | v :: r => inr (rev r, v)
  end.

(** ** The lexer ([lexer.py]) *)

Module Lexer.

Definition newline : ascii := "010"%char.
Definition backslash : ascii := "\"%char.
Definition squote : ascii := "'"%char.
Definition dquote : ascii := "034"%char.

(** [c in s] for a one-character Python [str] [c]. *)
Fixpoint in_str (c : ascii) (s : string) : bool :=
  match s with
  | EmptyString => false
  | String c' s' => Ascii.eqb c c' || in_str c s'
  end.

(** [NON_IDENTIFIER_SYMBOLS]: space, colon, the six brackets, both quote
    characters and newline. *)
Definition NON_IDENTIFIER_SYMBOLS : string :=
  " :()[]{}" ++ String dquote (String squote (String newline EmptyString)).
(** [OPERATOR_SYMBOLS]: the six one-character operators. *)
Definition OPERATOR_SYMBOLS : string := "+-*/%=".

Definition code (c : ascii) : Z := Z.of_nat (nat_of_ascii c).

(** [str.isdigit] on an ASCII character. *)
Definition isdigit (c : ascii) : bool :=
  (48 <=? code c) && (code c <=? 57).

(** [c.upper()] is a hexadecimal digit, on an ASCII character. *)
Definition is_hex (c : ascii) : bool :=
  isdigit c || ((65 <=? code c) && (code c <=? 70)) || ((97 <=? code c) && (code c <=? 102)).

Definition hex_value (c : ascii) : Z :=
  if isdigit c then code c - 48
  else if (65 <=? code c) && (code c <=? 70) then code c - 55 else code c - 87.

Definition error (message : string) : exn := LexerError ("Token error: " ++ message).

(** The characters read by a [while cond(self.current_char): ...; advance()]
    loop, and the rest of the input. *)
Fixpoint span (p : ascii -> bool) (s : string) : string * string :=
  match s with
  | String c s' => if p c then let '(run, rest) := span p s' in (String c run, rest)
                   else (EmptyString, s)
  | EmptyString => (EmptyString, EmptyString)
  end.

(** [int(res)] for a run of decimal digits. *)
Definition digits_value (s : string) : Z :=
  fold_left (fun acc c => acc * 10 + (code c - 48)) (list_ascii_of_string s) 0.

Definition hex_digits_value (s : string) : Z :=
  fold_left (fun acc c => acc * 16 + hex_value c) (list_ascii_of_string s) 0.

(** [float(res)] for the text [d1.d2]: the decimal value rounded to nearest
    binary64. *)
Definition float_of_decimal (d1 d2 : string) : float :=
  Py.round_ratio false (digits_value (d1 ++ d2)) (10 ^ Z.of_nat (String.length d2)).

(** [chr(n)] *)
Definition chr (n : Z) : exn + Z :=
  if (0 <=? n) && (n <=? 1114111) then inr n
  else inl (ValueError "chr() arg not in range(0x110000)").

(** [escape_map] of [_get_string_token]. *)
Definition escape_map (c : ascii) : option Z :=
  if Ascii.eqb c "n" then Some 10
  else if Ascii.eqb c "t" then Some 9
  else if Ascii.eqb c "r" then Some 13
  else if Ascii.eqb c "b" then Some 8
  else if Ascii.eqb c "f" then Some 12
  else if Ascii.eqb c backslash then Some 92
  else if Ascii.eqb c dquote then Some 34
  else if Ascii.eqb c squote then Some 39
  else None.

(** [_read_hex_digits(count)]: [k] digits still to read. *)
Fixpoint read_hex_digits (count k : nat) (s : string) : exn + (string * string) :=
  match k with
  | O => inr (EmptyString, s)
  | S k' =>
      match s with
      | String c s' =>
          if is_hex c then
            match read_hex_digits count k' s' with
            | inl e => inl e
            | inr (ds, rest) => inr (String c ds, rest)
            end
          else inl (error ("Expected " ++ pretty count ++ " hex digits after escape sequence"))
      | EmptyString =>
          inl (error ("Expected " ++ pretty count ++ " hex digits after escape sequence"))
      end
  end.

(** The [while] loop of [_get_string_token] after the opening quote [quot],
    with [res] read so far, then [self.consume(quot)]. *)
Fixpoint string_body (fuel : nat) (quot : ascii) (s : string) (res : list Z)
  : option (exn + (list Z * string)) :=
  match fuel with
  | O => None
  | S fuel' =>
    match s with
    | EmptyString => Some (inl (error "Unexpected EOF"))
    | String c s' =>
      if Ascii.eqb c quot then Some (inr (res, s'))
      else if Ascii.eqb c newline then Some (inl (error "Unexpected End of Line"))
      else if Ascii.eqb c backslash then
        match s' with
        | EmptyString => Some (inl (error "Unexpected EOF"))
        | String e s'' =>
          let hex k :=
            match read_hex_digits k k s'' with
            | inl ex => Some (inl ex)
            | inr (ds, rest) =>
                match chr (hex_digits_value ds) with
                | inl ex => Some (inl ex)
                | inr z => string_body fuel' quot rest (res ++ [z])
                end
            end in
          match escape_map e with
          | Some z => string_body fuel' quot s'' (res ++ [z])
          | None =>
            if Ascii.eqb e "x" then hex 2%nat
            else if Ascii.eqb e "u" then hex 4%nat
            else if Ascii.eqb e "U" then hex 8%nat
            else string_body fuel' quot s'' (res ++ [92; code e])
          end
        end
      else string_body fuel' quot s' (res ++ [code c])
    end
  end.

(** [int(res)] for a run of decimal digits: CPython refuses texts of more
    than [sys.get_int_max_str_digits()] (default 4300) digits. *)
Definition int_of_digits (d : string) : exn + Z :=
  if (4300 <? String.length d)%nat
  then inl (ValueError ("Exceeds the limit (4300 digits) for integer string conversion: value has "
                        ++ pretty (String.length d)
                        ++ " digits; use sys.set_int_max_str_digits() to increase the limit"))
  else inr (digits_value d).

Definition int_token (d : string) (rest : string) : exn + (Token * string) :=
  match int_of_digits d with
  | inl e => inl e
  | inr n => inr (TLiteral (LInt n), rest)
  end.

(** [_get_number_token] on input starting with a digit. *)
Definition _get_number_token (s : string) : exn + (Token * string) :=
  let '(d1, r1) := span isdigit s in
  match r1 with
  | String c r2 =>
      if Ascii.eqb c "." then
        let '(d2, r3) := span isdigit r2 in
        inr (TLiteral (LFloat (float_of_decimal d1 d2)), r3)
      else int_token d1 r1
  | EmptyString => int_token d1 r1
  end.

(** [_get_identifier_token] *)
Definition _get_identifier_token (s : string) : Token * string :=
  match s with
  | String c s' =>
      if in_str c OPERATOR_SYMBOLS then (TIdentifier (String c EmptyString), s')
      else let '(run, rest) :=
             span (fun c => negb (in_str c NON_IDENTIFIER_SYMBOLS) && negb (in_str c OPERATOR_SYMBOLS)) s in
           (TIdentifier run, rest)
  | EmptyString => (TIdentifier EmptyString, EmptyString)
  end.

(** [_get_assignment_token] on input starting with a colon. *)
Definition _get_assignment_token (s : string) : Token * string :=
  match s with
  | String _ (String c s'') =>
      if Ascii.eqb c "=" then (TAssign, s'')
      else (TIdentifier ":", String c s'')
  | String _ EmptyString => (TIdentifier ":", EmptyString)
  | EmptyString => (TIdentifier ":", EmptyString)
  end.

Fixpoint skip_spaces (s : string) : string :=
  match s with
  | String c s' => if Ascii.eqb c " " then skip_spaces s' else s
  | EmptyString => EmptyString
  end.

(** [next_token]. When only spaces are left, [self.current_char] is [None]
    and [None in "([{"] raises [TypeError]. *)
Definition next_token (fuel : nat) (s : string) : option (exn + (Token * string)) :=
  match skip_spaces s with
  | EmptyString =>
      Some (inl (TypeError "'in <string>' requires string as left operand, not NoneType"))
  | String c s' as s0 =>
      if Ascii.eqb c newline then Some (inr (TNewline, s'))
      else if in_str c "([{" then Some (inr (TParenL c, s'))
      else if in_str c ")]}" then Some (inr (TParenR c, s'))
      else if Ascii.eqb c ":" then Some (inr (_get_assignment_token s0))
      else if isdigit c then Some (_get_number_token s0)
      else if Ascii.eqb c squote || Ascii.eqb c dquote then
        match string_body fuel c s' [] with
        | None => None
        | Some (inl e) => Some (inl e)
        | Some (inr (res, rest)) => Some (inr (TLiteral (LStr res), rest))
        end
      else Some (inr (_get_identifier_token s0))
  end.

(** The [while self.current_char] loop of [Lexer.parse]. *)
Fixpoint parse_loop (fuel : nat) (s : string) (tokens : list Token)
  : option (exn + list Token) :=
  match fuel with
  | O => None
  | S fuel' =>
    match s with
    | EmptyString => Some (inr tokens)
    | String _ _ =>
      match next_token fuel' s with
      | None => None
      | Some (inl e) => Some (inl e)
      | Some (inr (t, rest)) => parse_loop fuel' rest (tokens ++ [t])
      end
    end
  end.

(** [Lexer.parse(source)], the spec's [tokenize]: [self.source[0]] raises
    [IndexError] on the empty string. Each loop turn consumes a character,
    so [length source + 1] calls suffice. *)
Definition parse (source : string) : option (exn + list Token) :=
  match source with
  | EmptyString => Some (inl (IndexError "string index out of range"))
  | String _ _ => parse_loop (S (String.length source)) source []
  end.

End Lexer.

Abbreviation tokenize := Lexer.parse.

(** ** The parser ([parser.py]); [self.tokens[self.index:]] is the token
    list still to read. *)

Module Parser.

Definition TokenType_eqb (a b : TokenType) : bool :=
  match a, b with
  | LITERAL, LITERAL | IDENTIFIER, IDENTIFIER | NEWLINE, NEWLINE
  | PARENTHESIS_L, PARENTHESIS_L | PARENTHESIS_R, PARENTHESIS_R
  | ASSIGNMENT, ASSIGNMENT => true
  | _, _ => false
  end.

(** [str(_type)] of the enum member. *)
Definition type_str (t : TokenType) : string :=
  match t with
  | LITERAL => "TokenType.LITERAL"
  | IDENTIFIER => "TokenType.IDENTIFIER"
  | NEWLINE => "TokenType.NEWLINE"
  | PARENTHESIS_L => "TokenType.PARENTHESIS_L"
  | PARENTHESIS_R => "TokenType.PARENTHESIS_R"
  | ASSIGNMENT => "TokenType.ASSIGNMENT"
  end.

(** [is_match(left, right)]: [{'(': ')', '[': ']', '{': '}'}.get(left, 0) == right] *)
Definition is_match (left right : ascii) : bool :=
  (Ascii.eqb left "(" && Ascii.eqb right ")")
  || (Ascii.eqb left "[" && Ascii.eqb right "]")
  || (Ascii.eqb left "{" && Ascii.eqb right "}").

(** [consume(_type)] *)
Definition consume (ty : TokenType) (ts : list Token) : exn + (Token * list Token) :=
  match ts with
  | [] => inl (ParserError "Unexpected EOF")
  | t :: ts' =>
      if TokenType_eqb (token_type t) ty then inr (t, ts')
      else inl (ParserError ("Expected " ++ type_str ty ++ " but got " ++ type_str (token_type t)))
  end.

(** The loop condition of [_parse_expression]. *)
Definition expr_continues (ts : list Token) : bool :=
  match ts with
  | [] => false
  | t :: _ => negb (TokenType_eqb (token_type t) NEWLINE)
              && negb (TokenType_eqb (token_type t) PARENTHESIS_R)
  end.

(** [_parse_expression] ([expr] holds the atoms read so far) and
    [_parse_atom]. *)
Fixpoint _parse_expression (fuel : nat) (ts : list Token) (expr : Expr)
  : option (exn + (Expr * list Token)) :=
  match fuel with
  | O => None
  | S fuel' =>
    if expr_continues ts then
      match _parse_atom fuel' ts with
      | None => None
      | Some (inl e) => Some (inl e)
      | Some (inr (a, ts')) => _parse_expression fuel' ts' (expr ++ [a])
      end
    else Some (inr (expr, ts))
  end
with _parse_atom (fuel : nat) (ts : list Token) : option (exn + (atom * list Token)) :=
  match fuel with
  | O => None
  | S fuel' =>
    match ts with
    | [] => Some (inl (ParserError "Unexpected EOF"))
    | TLiteral l :: ts' => Some (inr (Literal l, ts'))
    | TIdentifier name :: ts' => Some (inr (Identifier name, ts'))
    | TParenL left_c :: ts' =>
      match _parse_expression fuel' ts' [] with
      | None => None
      | Some (inl e) => Some (inl e)
      | Some (inr (expr, ts'')) =>
        match consume PARENTHESIS_R ts'' with
        | inl e => Some (inl e)
        | inr (TParenR right_c, rest) =>
            if negb (is_match left_c right_c) then
              Some (inl (ParserError ("Unmatched parentheses: " ++ String left_c EmptyString
                                       ++ " and " ++ String right_c EmptyString)))
            else if Ascii.eqb left_c "[" then Some (inr (Quot expr, rest))
            else if Ascii.eqb left_c "{" then Some (inr (List expr, rest))
            else Some (inl (ParserError ("Unimplemented parentheses: "
                                         ++ String left_c (String right_c EmptyString))))
        | inr (_, _) => Some (inl (ParserError "Unexpected EOF")) (* unreachable *)
        end
      end
    | TNewline :: _ =>
        Some (inl (ParserError "Unexpected token: Token(TokenType.NEWLINE, '\n')"))
    | TAssign :: _ =>
        Some (inl (ParserError "Unexpected token: Token(TokenType.ASSIGNMENT, ':=')"))
    | TParenR c :: _ =>
        Some (inl (ParserError ("Unexpected token: Token(TokenType.PARENTHESIS_R, '"
                                ++ String c "')")))
    end
  end.

(** [_is_declaration] *)
Definition _is_declaration (ts : list Token) : bool :=
  match ts with
  | _ :: t2 :: _ => TokenType_eqb (token_type t2) ASSIGNMENT
  | _ => false
  end.

(** [_parse_declaration] *)
Definition _parse_declaration (fuel : nat) (ts : list Token)
  : option (exn + (stmt * list Token)) :=
  match consume IDENTIFIER ts with
  | inl e => Some (inl e)
  | inr (t, ts1) =>
    let name := match t with TIdentifier n => n | _ => EmptyString end in
    match consume ASSIGNMENT ts1 with
    | inl e => Some (inl e)
    | inr (_, ts2) =>
      match _parse_expression fuel ts2 [] with
      | None => None
      | Some (inl e) => Some (inl e)
      | Some (inr (expr, ts3)) => Some (inr (Decl name expr, ts3))
      end
    end
  end.

(** One turn of the [while not self.eof()] loop of [_parse_program]. *)
Definition parse_statement (fuel : nat) (ts : list Token)
  : option (exn + (stmt * list Token)) :=
  if _is_declaration ts then _parse_declaration fuel ts
  else match _parse_expression fuel ts [] with
       | None => None
       | Some (inl e) => Some (inl e)
       | Some (inr (expr, ts')) => Some (inr (SExpr expr, ts'))
       end.

(** [_parse_program]: [program] holds the statements read so far. *)
Fixpoint _parse_program (fuel : nat) (ts : list Token) (program : Program)
  : option (exn + Program) :=
  match fuel with
  | O => None
  | S fuel' =>
    match ts with
    | [] => Some (inr program)
    | _ :: _ =>
      match parse_statement fuel' ts with
      | None => None
      | Some (inl e) => Some (inl e)
      | Some (inr (st, ts')) => _parse_program fuel' ts' (program ++ [st])
      end
    end
  end.

(** [Parser.parse(tokens)], run for at most [fuel] nested calls. *)
Definition parse (fuel : nat) (tokens : list Token) : option (exn + Program) :=
  _parse_program fuel tokens [].

(** [parse(tokens)] returns (a [Program] or a [ParserError]) after finitely
    many steps. *)
Definition terminates (tokens : list Token) : Prop :=
  exists fuel r, parse fuel tokens = Some r.

End Parser.

(** ** Python's binary operators on stack values *)

Module Ops.

(** [type(v).__name__] *)
Definition type_name (v : val) : string :=
  match v with
  | VInt _ => "int"
  | VFloat _ => "float"
  | VStr _ => "str"
  | VQuot _ => "Quot"
  | VSeq _ => "list"
  end.

(** The [TypeError] of [binop_type_error] for an operand pair that neither
    operand's type supports. *)
Definition unsupported (op : string) (b a : val) : exn :=
  TypeError ("unsupported operand type(s) for " ++ op ++ ": '" ++ type_name b
             ++ "' and '" ++ type_name a ++ "'").

(** [str + x] and [list + x] for an [x] of another type: the [sq_concat]
    slot of the left operand raises. *)
Definition concat_error (seq_type : string) (a : val) : exn :=
  TypeError ("can only concatenate " ++ seq_type ++ " (not " ++ String Lexer.dquote EmptyString
             ++ type_name a ++ String Lexer.dquote EmptyString ++ ") to " ++ seq_type).

(** [sequence_repeat] with a count that is not an [int]. *)
Definition repeat_type_error (n : val) : exn :=
  TypeError ("can't multiply sequence by non-int of type '" ++ type_name n ++ "'").

Definition PY_SSIZE_T_MAX : Z := 2 ^ 63 - 1.

(** [PyNumber_AsSsize_t(n, OverflowError)] *)
Definition as_ssize_t (n : Z) : exn + Z :=
  if (- 2 ^ 63 <=? n) && (n <=? PY_SSIZE_T_MAX) then inr n
  else inl (OverflowError "cannot fit 'int' into an index-sized integer").

(** A number as a Python [float], converting an [int]. *)
Definition to_float (v : val) : option (exn + float) :=
  match v with
  | VInt n => Some (Py.float_of_int n)
  | VFloat f => Some (inr f)
  | _ => None
  end.

(** [b OP a] where at least one side is a [float]. *)
Definition float_op (fop : float -> float -> exn + float) (op : string) (b a : val)
  : exn + val :=
  match to_float b, to_float a with
  | Some (inl e), _ => inl e
  | Some (inr x), Some (inl e) => inl e
  | Some (inr x), Some (inr y) =>
      match fop x y with inl e => inl e | inr z => inr (VFloat z) end
  | _, _ => inl (unsupported op b a)
  end.

Definition lift (f : float -> float -> float) (x y : float) : exn + float := inr (f x y).

(** [seq * n]: empty for [n <= 0]. *)
Definition repeat_list {A} (xs : list A) (n : Z) : list A :=
  concat (repeat xs (Z.to_nat n)).

(** [unicode_repeat]: a result longer than [PY_SSIZE_T_MAX] raises
    [OverflowError]. Running out of the host's memory below that bound
    ([MemoryError]) is outside this model. *)
Definition str_repeat (x : list Z) (n : Z) : exn + val :=
  match as_ssize_t n with
  | inl e => inl e
  | inr k =>
      if k <? 1 then inr (VStr [])
      else if PY_SSIZE_T_MAX / k <? Z.of_nat (length x)
      then inl (OverflowError "repeated string is too long")
      else inr (VStr (repeat_list x k))
  end.

(** [list_repeat]: a result longer than [PY_SSIZE_T_MAX] raises
    [MemoryError] ([PyErr_NoMemory], empty message). *)
Definition list_repeat (x : list val) (n : Z) : exn + val :=
  match as_ssize_t n with
  | inl e => inl e
  | inr k =>
      if (length x =? 0)%nat || (k <=? 0) then inr (VSeq [])
      else if PY_SSIZE_T_MAX / k <? Z.of_nat (length x)
      then inl (MemoryError EmptyString)
      else inr (VSeq (repeat_list x k))
  end.

Definition py_add (b a : val) : exn + val :=
  match b, a with
  | VInt x, VInt y => inr (VInt (x + y))
  | VStr x, VStr y => inr (VStr (x ++ y))
  | VSeq x, VSeq y => inr (VSeq (x ++ y))
  | VStr _, _ => inl (concat_error "str" a)
  | VSeq _, _ => inl (concat_error "list" a)
  | _, _ => float_op (lift PrimFloat.add) "+" b a
  end.

Definition py_sub (b a : val) : exn + val :=
  match b, a with
  | VInt x, VInt y => inr (VInt (x - y))
  | _, _ => float_op (lift PrimFloat.sub) "-" b a
  end.

Definition py_mul (b a : val) : exn + val :=
  match b, a with
  | VInt x, VInt y => inr (VInt (x * y))
  | VStr x, VInt n | VInt n, VStr x => str_repeat x n
  | VSeq x, VInt n | VInt n, VSeq x => list_repeat x n
  | VStr _, _ | VSeq _, _ => inl (repeat_type_error a)
  | _, VStr _ | _, VSeq _ => inl (repeat_type_error b)
  | _, _ => float_op (lift PrimFloat.mul) "*" b a
  end.

Definition py_truediv (b a : val) : exn + val :=
  match b, a with
  | VInt x, VInt y => match Py.int_truediv x y with inl e => inl e | inr z => inr (VFloat z) end
  | _, _ => float_op Py.float_div "/" b a
  end.

Definition py_mod (b a : val) : exn + val :=
  match b, a with
  | VInt x, VInt y =>
      if Z.eqb y 0 then inl (ZeroDivisionError "integer modulo by zero")
      else inr (VInt (Z.modulo x y))
  | VStr _, _ => inl (Unmodelled "printf-style string formatting")
  | _, _ => float_op Py.float_rem "%" b a
  end.

End Ops.

(** ** The builtin registry ([builtins.py]) *)

(** The functions of [BUILTIN_SCOPE]. *)
Inductive builtin :=
| Bstack_plus | Bstack_minus | Bstack_multiply | Bstack_divide | Bstack_mod
| Bdup | Brun_quot | Bprint_stack | Bclear_stack | Bprint_top | Bdrop_top
| Bswap_two | Brot_three.

(** [BUILTIN_SCOPE[name]] *)
Definition BUILTIN_SCOPE (name : string) : option builtin :=
  if String.eqb name "+" then Some Bstack_plus
  else if String.eqb name "-" then Some Bstack_minus
  else if String.eqb name "*" then Some Bstack_multiply
  else if String.eqb name "/" then Some Bstack_divide
  else if String.eqb name "%" then Some Bstack_mod
  else if String.eqb name "dup" then Some Bdup
  else if String.eqb name "\" then Some Brun_quot
  else if String.eqb name "stack" then Some Bprint_stack
  else if String.eqb name "clear" then Some Bclear_stack
  else if String.eqb name "." then Some Bprint_top
  else if String.eqb name "drop" then Some Bdrop_top
  else if String.eqb name "swap" then Some Bswap_two
  else if String.eqb name "rot" then Some Brot_three
  else None.

(** The [num_args] each function is decorated with by [@stack_args]. *)
Definition num_args (b : builtin) : nat :=
  match b with
  | Bstack_plus | Bstack_minus | Bstack_multiply | Bstack_divide | Bstack_mod => 2
  | Bdup | Brun_quot | Bprint_top | Bdrop_top => 1
  | Bprint_stack | Bclear_stack => 0
  | Bswap_two => 2
  | Brot_three => 3
  end.

(** The stack after a native operation, or the exception it raised with the
    stack as it was at the [raise] (Python mutates the list in place). *)
Inductive sresult :=
| SOk (st : list val)
| SErr (e : exn) (st : list val).

(** [a = stack.pop(); b = stack.pop(); stack.append(b OP a)] *)
Definition binary_op (f : val -> val -> exn + val) (st : list val) : sresult :=
  match pop st with
  | inl e => SErr e st
  | inr (st1, a) =>
    match pop st1 with
    | inl e => SErr e st1
    | inr (st2, b) =>
      match f b a with
      | inl e => SErr e st2
      | inr v => SOk (st2 ++ [v])
      end
    end
  end.

(** [stack[-1]] *)
Definition top (st : list val) : exn + val :=
  match last st with
  | Some v => inr v
  | None => inl (IndexError "list index out of range")
  end.

(** The bodies of the builtins other than [run_quot], on [runtime.stack]
    ([print_stack] and [print_top] only write to stdout, which is not
    modelled). *)
Definition stack_op (b : builtin) (st : list val) : sresult :=
  match b with
  | Bstack_plus => binary_op Ops.py_add st
  | Bstack_minus => binary_op Ops.py_sub st
  | Bstack_multiply => binary_op Ops.py_mul st
  | Bstack_divide => binary_op Ops.py_truediv st
  | Bstack_mod => binary_op Ops.py_mod st
  | Bdup => match top st with inl e => SErr e st | inr v => SOk (st ++ [v]) end
  | Brun_quot => SOk st (* handled by the evaluator *)
  | Bprint_stack => SOk st
  | Bclear_stack => SOk []
  | Bprint_top => match top st with inl e => SErr e st | inr _ => SOk st end
  | Bdrop_top => match pop st with inl e => SErr e st | inr (st', _) => SOk st' end
  | Bswap_two =>
      match pop st with
      | inl e => SErr e st
      | inr (st1, a) =>
        match pop st1 with
        | inl e => SErr e st1
        | inr (st2, b) => SOk (st2 ++ [a] ++ [b])
        end
      end
  | Brot_three =>
      match pop st with
      | inl e => SErr e st
      | inr (st1, a) =>
        match pop st1 with
        | inl e => SErr e st1
        | inr (st2, b) =>
          match pop st2 with
          | inl e => SErr e st2
          | inr (st3, c) => SOk (st3 ++ [b] ++ [a] ++ [c])
          end
        end
      end
  end.

(** The check of the [stack_args(num_args)] wrapper. *)
Definition stack_args_error (n : nat) (st : list val) : option exn :=
  if Nat.ltb (length st) n
  then Some (RunTimeError ("Expected " ++ pretty n ++ " items on stack but got "
                           ++ pretty (length st)))
  else None.

(** [f'{type(quot)}'] *)
Definition type_repr (v : val) : string :=
  "<class '" ++ Ops.type_name v ++ "'>".

(** ** The evaluator ([evaluation.py]) *)

(** The end of a visit: the runtime as it was left, with the exception that
    escaped if any. *)
Inductive outcome :=
| Ok (rt : RunTime)
| Err (e : exn) (rt : RunTime)
| OutOfFuel.

(** [self.recursion_depth -= 1] after a visit that returned normally. *)
Definition dec_depth (o : outcome) : outcome :=
  match o with
  | Ok rt => Ok (set_depth (recursion_depth rt - 1) rt)
  | o => o
  end.

(** The [while cur_runtime.parent] walk of [visit_identifier] over the
    scopes of the ancestors, immediate parent first. *)
Fixpoint lookup_parents (parents : list (gmap string Expr)) (name : string) : option Expr :=
  match parents with
  | [] => None
  | sc :: parents' =>
      match sc !! name with
      | Some e => Some e
      | None => lookup_parents parents' name
      end
  end.

(** [visit_expr], the dispatch of [atom.accept(self)], [visit_identifier]
    and the call of a registry entry (the [stack_args] wrapper around the
    function). [parents] are the scopes of [self.parent],
    [self.parent.parent], ... *)
Fixpoint visit_expr (fuel : nat) (parents : list (gmap string Expr)) (expr : Expr)
  (rt : RunTime) {struct fuel} : outcome :=
  match fuel with
  | O => OutOfFuel
  | S fuel' =>
    (fix go (atoms : Expr) (rt : RunTime) : outcome :=
       match atoms with
       | [] => Ok rt
       | a :: atoms' =>
           match visit_atom fuel' parents a rt with
           | Ok rt' => go atoms' rt'
           | o => o
           end
       end) expr rt
  end
with visit_atom (fuel : nat) (parents : list (gmap string Expr)) (a : atom)
  (rt : RunTime) {struct fuel} : outcome :=
  match fuel with
  | O => OutOfFuel
  | S fuel' =>
    match a with
    | Literal content => Ok (push (value_of_lit content) rt)
    | Quot e => Ok (push (VQuot e) rt)
    | List items =>
        (* visit_list: RunTime(parent=self), then evaluate(lst.items) *)
        match visit_expr fuel' (scope rt :: parents) items new_runtime with
        | Ok sub_runtime => Ok (push (VSeq (stack sub_runtime)) rt)
        | Err e _ => Err e rt
        | OutOfFuel => OutOfFuel
        end
    | Identifier name => visit_identifier fuel' parents name rt
    end
  end
with visit_identifier (fuel : nat) (parents : list (gmap string Expr)) (name : string)
  (rt : RunTime) {struct fuel} : outcome :=
  match fuel with
  | O => OutOfFuel
  | S fuel' =>
    if Z.leb max_recursion_depth (recursion_depth rt)
    then Err (RunTimeError "Maximum recursion depth reached") (set_depth 0 rt)
    else
      let rt1 := set_depth (recursion_depth rt + 1) rt in
      match scope rt1 !! name with
      | Some expr => dec_depth (visit_expr fuel' parents expr rt1)
      | None =>
        match BUILTIN_SCOPE name with
        | Some func => dec_depth (call_builtin fuel' parents func rt1)
        | None =>
          match lookup_parents parents name with
          | Some expr => dec_depth (visit_expr fuel' parents expr rt1)
          | None => Err (RunTimeError ("Unknown identifier " ++ name)) rt1
          end
        end
      end
  end
with call_builtin (fuel : nat) (parents : list (gmap string Expr)) (b : builtin)
  (rt : RunTime) {struct fuel} : outcome :=
  match fuel with
  | O => OutOfFuel
  | S fuel' =>
    match stack_args_error (num_args b) (stack rt) with
    | Some e => Err e rt
    | None =>
      match b with
      | Brun_quot =>
          match pop (stack rt) with
          | inl e => Err e rt
          | inr (st, quot) =>
            let rt' := set_stack st rt in
            match quot with
            | VQuot expr => visit_expr fuel' parents expr rt'
            | _ => Err (TypeError ("Expected quotation but got " ++ type_repr quot)) rt'
            end
          end
      | _ =>
          match stack_op b (stack rt) with
          | SOk st => Ok (set_stack st rt)
          | SErr e st => Err e (set_stack st rt)
          end
      end
    end
  end.

(** [visit_program]: a [Decl] binds its unevaluated expression in
    [self.scope]; an [Expr] statement is visited. *)
Fixpoint visit_program (fuel : nat) (program : Program) (rt : RunTime) : outcome :=
  match program with
  | [] => Ok rt
  | Decl word expr :: program' =>
      visit_program fuel program' (mk_runtime (stack rt) (<[word := expr]> (scope rt))
                                               (recursion_depth rt))
  | SExpr expr :: program' =>
      match visit_expr fuel [] expr rt with
      | Ok rt' => visit_program fuel program' rt'
      | o => o
      end
  end.

(** ** The read-eval-print loop ([repl] in [evaluation.py]) *)

(** [str.strip()]: the ASCII whitespace Python strips. *)
Definition is_py_space (c : ascii) : bool :=
  let n := nat_of_ascii c in
  Nat.eqb n 32 || (Nat.leb 9 n && Nat.leb n 13) || (Nat.leb 28 n && Nat.leb n 31).

Fixpoint lstrip (s : string) : string :=
  match s with
  | String c s' => if is_py_space c then lstrip s' else s
  | EmptyString => EmptyString
  end.

Definition strip (s : string) : string :=
  let rev_s s := string_of_list_ascii (rev (list_ascii_of_string s)) in
  rev_s (lstrip (rev_s (lstrip s))).

(** One line of the loop: an empty line is skipped; any exception is printed
    and the same [runtime], as the failed statement left it, serves the next
    line. [None]: the fuel ran out. *)
Definition repl_line (fuel : nat) (runtime : RunTime) (line : string) : option RunTime :=
  match strip line with
  | EmptyString => Some runtime
  | source =>
    match tokenize source with
    | None => None
    | Some (inl _) => Some runtime
    | Some (inr tokens) =>
      match Parser.parse fuel tokens with
      | None => None
      | Some (inl _) => Some runtime
      | Some (inr ast) =>
        match visit_program fuel ast runtime with
        | Ok rt | Err _ rt => Some rt
        | OutOfFuel => None
        end
      end
    end
  end.

(** A session: the lines in order, on one [RunTime]. *)
Fixpoint repl_session (fuel : nat) (runtime : RunTime) (lines : list string) : option RunTime :=
  match lines with
  | [] => Some runtime
  | line :: lines' =>
      match repl_line fuel runtime line with
      | None => None
      | Some rt => repl_session fuel rt lines'
      end
  end.

(** [tokenize], [parse] and [RunTime().evaluate] of one source text: the
    final stack, or the first exception. *)
Definition run_source (fuel : nat) (source : string) : option (exn + list val) :=
  match tokenize source with
  | None => None
  | Some (inl e) => Some (inl e)
  | Some (inr tokens) =>
    match Parser.parse fuel tokens with
    | None => None
    | Some (inl e) => Some (inl e)
    | Some (inr ast) =>
      match visit_program fuel ast new_runtime with
      | Ok rt => Some (inr (stack rt))
      | Err e _ => Some (inl e)
      | OutOfFuel => None
      end
    end
  end.

(** ** Predicates and shapes used by the further properties *)

(** [forall c in s, p c] *)
Fixpoint forall_chars (p : ascii -> bool) (s : string) : bool :=
  match s with
  | EmptyString => true
  | String c s' => p c && forall_chars p s'
  end.

(** A runtime left by a visit of [rt]: same scope; on success also the same
    recursion counter. *)
Definition frame_kept (rt : RunTime) (o : outcome) : Prop :=
  match o with
  | Ok rt' => scope rt' = scope rt /\ recursion_depth rt' = recursion_depth rt
  | Err _ rt' => scope rt' = scope rt
  | OutOfFuel => True
  end.

(** The operator of each two-operand registry function. *)
Definition binary_builtin_op (b : builtin) : option (val -> val -> exn + val) :=
  match b with
  | Bstack_plus => Some Ops.py_add
  | Bstack_minus => Some Ops.py_sub
  | Bstack_multiply => Some Ops.py_mul
  | Bstack_divide => Some Ops.py_truediv
  | Bstack_mod => Some Ops.py_mod
  | _ => None
  end.

(** An [int] or a [float]: the operands on which [+ - * / %] are plain
    arithmetic. *)
Definition is_number (v : val) : bool :=
  match v with VInt _ | VFloat _ => true | _ => false end.

(** The characters [_get_identifier_token] keeps in a name. *)
Definition identifier_char (c : ascii) : bool :=
  negb (Lexer.in_str c Lexer.NON_IDENTIFIER_SYMBOLS) && negb (Lexer.in_str c Lexer.OPERATOR_SYMBOLS).

(** The characters [_get_string_token] copies as they are. *)
Definition plain_char (quot c : ascii) : bool :=
  negb (Ascii.eqb c quot) && negb (Ascii.eqb c Lexer.backslash)
  && negb (Ascii.eqb c Lexer.newline).

(** A result of a lexing step: not cut by the fuel, and consuming input. *)
Definition lex_progress {A} (n : nat) (r : option (exn + (A * string))) : Prop :=
  match r with
  | None => False
  | Some (inl _) => True
  | Some (inr (_, rest)) => (String.length rest < n)%nat
  end.

(** A [LITERAL] or [IDENTIFIER] token, and the atom [_parse_atom] makes of it. *)
Definition simple_token (x : lit + string) : Token :=
  match x with inl l => TLiteral l | inr name => TIdentifier name end.
Definition simple_atom (x : lit + string) : atom :=
  match x with inl l => Literal l | inr name => Identifier name end.



(** * Properties *)

(** ** Helper lemmas *)

Lemma pop_snoc (st : list val) (v : val) : pop (st ++ [v]) = inr (st, v).
Proof. unfold pop. rewrite rev_app_distr. simpl. rewrite rev_involutive. reflexivity. Qed.

Lemma set_depth_set_depth (d d' : Z) (rt : RunTime) :
  set_depth d (set_depth d' rt) = set_depth d rt.
Proof. destruct rt; reflexivity. Qed.

Lemma set_stack_push_depth (v : val) (d : Z) (rt : RunTime) :
  set_stack (stack rt) (set_depth d (push v rt)) = set_depth d rt.
Proof. destruct rt; reflexivity. Qed.

(** A token that ends an expression. *)
Definition ends_expression (t : Token) : bool :=
  Parser.TokenType_eqb (token_type t) NEWLINE
  || Parser.TokenType_eqb (token_type t) PARENTHESIS_R.

(** A statement that starts with a [NEWLINE] or [PARENTHESIS_R] token (and
    is not a declaration) is an empty [Expr] that consumes nothing: the loop
    of [_parse_program] never reaches the end of the tokens. *)
Lemma parse_program_no_progress (fuel : nat) (t : Token) (rest : list Token)
  (program : Program) :
  ends_expression t = true ->
  Parser._is_declaration (t :: rest) = false ->
  Parser._parse_program fuel (t :: rest) program = None.
Proof.
  intros Hend Hdecl. revert program.
  induction fuel as [|fuel IH]; intros program; [reflexivity|].
  cbn [Parser._parse_program]. unfold Parser.parse_statement. rewrite Hdecl.
  destruct fuel as [|fuel']; [reflexivity|].
  assert (Hstop : Parser.expr_continues (t :: rest) = false).
  { unfold ends_expression in Hend. simpl.
    destruct (Parser.TokenType_eqb (token_type t) NEWLINE); [reflexivity|].
    simpl in Hend. rewrite Hend. reflexivity. }
  cbn [Parser._parse_expression]. rewrite Hstop. apply IH.
Qed.

Lemma parse_never_terminates (t : Token) (rest : list Token) :
  ends_expression t = true ->
  Parser._is_declaration (t :: rest) = false ->
  ~ Parser.terminates (t :: rest).
Proof.
  intros Hend Hdecl [fuel [r Hr]]. unfold Parser.parse in Hr.
  rewrite parse_program_no_progress in Hr by assumption. discriminate.
Qed.

(** ** C1: parsing a token sequence is total *)

(** C1 (code_bug): [parse] does not terminate on the one-token sequence
    [)] (what [tokenize] makes of the source [")"]), nor on a lone
    [NEWLINE]: [_parse_expression] stops before such a token without
    consuming it, so [_parse_program] appends empty [Expr] statements forever
    instead of raising [ParserError]. *)
Theorem parse_loops_on_statement_boundary :
  tokenize ")" = Some (inr [TParenR ")"])
  /\ ~ Parser.terminates [TParenR ")"]
  /\ ~ Parser.terminates [TNewline]
  /\ Parser.parse_statement 5 [TParenR ")"] = Some (inr (SExpr [], [TParenR ")"])).
Proof.
  split; [reflexivity|]. split; [apply parse_never_terminates; reflexivity|].
  split; [apply parse_never_terminates; reflexivity|]. reflexivity.
Qed.

(** ** C2: running a value that is not a quotation *)

(** C2 (counterexample): with the integer [1] on top of the stack, the
    builtin [\] pops it and raises [TypeError], not the interpreter's
    [RunTimeError]. *)
Lemma run_quot_int_not_runtime_error :
  call_builtin 1 [] Brun_quot (mk_runtime [VInt 1] ∅ 0)
    = Err (TypeError "Expected quotation but got <class 'int'>") (mk_runtime [] ∅ 0)
  /\ ~ (exists msg rt, call_builtin 1 [] Brun_quot (mk_runtime [VInt 1] ∅ 0)
                        = Err (RunTimeError msg) rt).
Proof.
  split; [reflexivity|]. intros [msg [rt H]]. discriminate H.
Qed.

(** C2 (amended): on a stack [st ++ [v]] whose top [v] is not a quotation,
    [\] pops [v] and raises [TypeError] naming [type(v)]; the stack is
    left as [st]. *)
Theorem run_quot_non_quotation_type_error (fuel : nat) (parents : list (gmap string Expr))
  (rt : RunTime) (st : list val) (v : val) :
  stack rt = st ++ [v] ->
  (forall e, v <> VQuot e) ->
  call_builtin (S fuel) parents Brun_quot rt
    = Err (TypeError ("Expected quotation but got " ++ type_repr v)) (set_stack st rt).
Proof.
  intros Hst Hv. cbn [call_builtin]. unfold stack_args_error. rewrite Hst.
  rewrite length_app. simpl.
  replace (Nat.ltb (length st + 1) 1) with false
    by (symmetry; apply Nat.ltb_ge; lia).
  rewrite pop_snoc. destruct v; try reflexivity.
  exfalso. eapply Hv. reflexivity.
Qed.

Lemma run_quot_non_quotation_type_error_witness :
  call_builtin 1 [] Brun_quot (mk_runtime [VStr [104]; VInt 1] ∅ 0)
    = Err (TypeError ("Expected quotation but got " ++ type_repr (VInt 1)))
          (set_stack [VStr [104]] (mk_runtime [VStr [104]; VInt 1] ∅ 0)).
Proof.
  apply (run_quot_non_quotation_type_error 0 [] _ [VStr [104]] (VInt 1));
    [reflexivity | intros e H; discriminate H].
Defined.

(** ** C3: [tokenize] either returns the tokens or raises [LexerError] *)

(** C3 (code_bug): [Lexer.parse("")] raises [IndexError] at
    [self.source[self.pos]]; a trailing space makes [next_token] evaluate
    [None in "([{"] ([TypeError]); an escape above [0x10FFFF] makes [chr]
    raise [ValueError]. None of them is a [LexerError]. *)
Theorem tokenize_raises_other_errors :
  Lexer.parse "" = Some (inl (IndexError "string index out of range"))
  /\ Lexer.parse "1 " = Some (inl (TypeError "'in <string>' requires string as left operand, not NoneType"))
  /\ Lexer.parse "'\U00110000'" = Some (inl (ValueError "chr() arg not in range(0x110000)")).
Proof. split; [reflexivity|]. split; vm_compute; reflexivity. Qed.

(** ** C4: [a b OP] on integers and floats *)



(** ** C5: arity checks *)

(** C5: every registry entry called on fewer values than its [num_args]
    raises [RunTimeError('Expected N items on stack but got M')] and leaves
    the runtime, its stack included, unchanged. *)
Theorem stack_args_underflow (fuel : nat) (parents : list (gmap string Expr))
  (b : builtin) (rt : RunTime) :
  (length (stack rt) < num_args b)%nat ->
  call_builtin (S fuel) parents b rt
    = Err (RunTimeError ("Expected " ++ pretty (num_args b) ++ " items on stack but got "
                         ++ pretty (length (stack rt)))) rt.
Proof.
  intros Hlt. cbn [call_builtin]. unfold stack_args_error.
  apply Nat.ltb_lt in Hlt. rewrite Hlt. reflexivity.
Qed.

Lemma stack_args_underflow_witness :
  (length (stack (mk_runtime [VInt 1] ∅ 0)) < num_args Bstack_plus)%nat
  /\ call_builtin 1 [] Bstack_plus (mk_runtime [VInt 1] ∅ 0)
     = Err (RunTimeError ("Expected " ++ pretty (num_args Bstack_plus)
                          ++ " items on stack but got "
                          ++ pretty (length (stack (mk_runtime [VInt 1] ∅ 0)))))
           (mk_runtime [VInt 1] ∅ 0).
Proof.
  split; [simpl; lia|]. apply (stack_args_underflow 0 [] Bstack_plus). simpl. lia.
Defined.

(** ** C6: the order of identifier resolution *)

(** [lookup_parents] finds the binding of the nearest ancestor that has one. *)
Lemma lookup_parents_nearest (parents : list (gmap string Expr)) (name : string) (e : Expr) :
  lookup_parents parents name = Some e
  <-> exists pre sc post, parents = pre ++ sc :: post
        /\ Forall (fun s : gmap string Expr => s !! name = None) pre
        /\ sc !! name = Some e.
Proof.
  split.
  - induction parents as [|sc parents IH]; simpl; [discriminate|].
    destruct (sc !! name) as [e'|] eqn:Hsc.
    + intros [= <-]. exists [], sc, parents. auto.
    + intros H. destruct (IH H) as (pre & sc' & post & -> & Hpre & Hsc').
      exists (sc :: pre), sc', post. split; [reflexivity|]. split; [constructor; auto|auto].
  - intros (pre & sc & post & -> & Hpre & Hsc). induction Hpre as [|s pre Hs _ IH]; simpl.
    + rewrite Hsc. reflexivity.
    + rewrite Hs. exact IH.
Qed.

Lemma visit_identifier_unknown (fuel : nat) (parents : list (gmap string Expr))
  (name : string) (rt : RunTime) :
  recursion_depth rt < max_recursion_depth ->
  scope rt !! name = None -> BUILTIN_SCOPE name = None -> lookup_parents parents name = None ->
  visit_identifier (S fuel) parents name rt
    = Err (RunTimeError ("Unknown identifier " ++ name))
          (set_depth (recursion_depth rt + 1) rt).
Proof.
  intros Hd Hl Hb Hp. cbn [visit_identifier].
  replace (Z.leb max_recursion_depth (recursion_depth rt)) with false
    by (symmetry; apply Z.leb_gt; exact Hd).
  destruct rt as [st sc d]. simpl in *. rewrite Hl, Hb, Hp. reflexivity.
Qed.

(** C6: below the depth ceiling, resolving [name] in runtime [rt] (counter
    raised by one, giving [rt1]) (1) runs the expression bound in the
    current scope in [rt1]; otherwise (2) runs the builtin on [rt1],
    whatever the ancestors bind; otherwise (3) runs the expression of the
    nearest ancestor that binds [name], still in [rt1] and with [rt1]'s own
    parent chain; otherwise (4) raises [RunTimeError('Unknown identifier')]. *)
Theorem identifier_resolution_order (fuel : nat) (parents : list (gmap string Expr))
  (name : string) (rt : RunTime) :
  recursion_depth rt < max_recursion_depth ->
  let rt1 := set_depth (recursion_depth rt + 1) rt in
  (forall e, scope rt !! name = Some e ->
     visit_identifier (S fuel) parents name rt = dec_depth (visit_expr fuel parents e rt1))
  /\ (forall b, scope rt !! name = None -> BUILTIN_SCOPE name = Some b ->
     visit_identifier (S fuel) parents name rt = dec_depth (call_builtin fuel parents b rt1))
  /\ (forall pre sc post e, scope rt !! name = None -> BUILTIN_SCOPE name = None ->
     parents = pre ++ sc :: post ->
     Forall (fun s : gmap string Expr => s !! name = None) pre -> sc !! name = Some e ->
     visit_identifier (S fuel) parents name rt = dec_depth (visit_expr fuel parents e rt1))
  /\ (scope rt !! name = None -> BUILTIN_SCOPE name = None ->
     Forall (fun s : gmap string Expr => s !! name = None) parents ->
     visit_identifier (S fuel) parents name rt
       = Err (RunTimeError ("Unknown identifier " ++ name)) rt1).
Proof.
  intros Hd rt1.
  assert (Hcheck : Z.leb max_recursion_depth (recursion_depth rt) = false)
    by (apply Z.leb_gt; exact Hd).
  split; [|split; [|split]].
  - intros e Hl. cbn [visit_identifier]. rewrite Hcheck.
    destruct rt as [st sc d]. simpl in *. rewrite Hl. reflexivity.
  - intros b Hl Hb. cbn [visit_identifier]. rewrite Hcheck.
    destruct rt as [st sc d]. simpl in *. rewrite Hl, Hb. reflexivity.
  - intros pre sc post e Hl Hb Hpar Hpre Hsc.
    assert (Hp : lookup_parents parents name = Some e)
      by (apply lookup_parents_nearest; exists pre, sc, post; auto).
    cbn [visit_identifier]. rewrite Hcheck.
    destruct rt as [st sc' d]. simpl in *. rewrite Hl, Hb, Hp. reflexivity.
  - intros Hl Hb Hall. apply visit_identifier_unknown; try assumption.
    induction Hall as [|s ps Hs _ IH]; simpl; [reflexivity|]. rewrite Hs. exact IH.
Qed.

Lemma identifier_resolution_order_witness :
  recursion_depth (mk_runtime [] {[ "y" := [Literal (LInt 5)] ]} 0) < max_recursion_depth
  /\ visit_identifier 10 [{[ "z" := [Literal (LInt 7)] ]}] "z"
       (mk_runtime [] {[ "y" := [Literal (LInt 5)] ]} 0)
     = dec_depth (visit_expr 9 [{[ "z" := [Literal (LInt 7)] ]}] [Literal (LInt 7)]
                   (set_depth 1 (mk_runtime [] {[ "y" := [Literal (LInt 5)] ]} 0))).
Proof.
  split; [reflexivity|].
  destruct (identifier_resolution_order 9 [{[ "z" := [Literal (LInt 7)] ]}] "z"
              (mk_runtime [] {[ "y" := [Literal (LInt 5)] ]} 0) ltac:(reflexivity))
    as (_ & _ & H3 & _).
  apply (H3 [] {[ "z" := [Literal (LInt 7)] ]} []); first [reflexivity | constructor].
Defined.

(** ** C7: the self-referential binding [x := x] *)

Lemma visit_identifier_ceiling (fuel : nat) (parents : list (gmap string Expr))
  (name : string) (rt : RunTime) :
  max_recursion_depth <= recursion_depth rt ->
  visit_identifier (S fuel) parents name rt
    = Err (RunTimeError "Maximum recursion depth reached") (set_depth 0 rt).
Proof.
  intros Hd. cbn [visit_identifier].
  replace (Z.leb max_recursion_depth (recursion_depth rt)) with true
    by (symmetry; apply Z.leb_le; exact Hd).
  reflexivity.
Qed.

Section SelfReference.
Variable parents : list (gmap string Expr).
Variable rt : RunTime.
Hypothesis Hx : scope rt !! "x" = Some [Identifier "x"].

(** One resolution of [x] below the ceiling is one nested resolution of
    [x] with the counter raised by one. *)
Lemma self_ref_step (fuel : nat) (d : Z) :
  d < max_recursion_depth ->
  visit_identifier (3 + fuel) parents "x" (set_depth d rt)
    = dec_depth (visit_identifier fuel parents "x" (set_depth (d + 1) rt)).
Proof.
  intros Hd. cbn [visit_identifier Nat.add].
  replace (Z.leb max_recursion_depth (recursion_depth (set_depth d rt))) with false
    by (symmetry; apply Z.leb_gt; exact Hd).
  destruct rt as [st sc d0]. simpl in *. rewrite Hx.
  cbn [visit_expr visit_atom].
  destruct (visit_identifier fuel parents "x" _); reflexivity.
Qed.

Lemma self_ref_fails (k : nat) (fuel : nat) :
  (3 * k + 1 <= fuel)%nat ->
  visit_identifier fuel parents "x" (set_depth (max_recursion_depth - Z.of_nat k) rt)
    = Err (RunTimeError "Maximum recursion depth reached") (set_depth 0 rt).
Proof.
  revert fuel. induction k as [|k IH]; intros fuel Hf.
  - destruct fuel as [|fuel]; [lia|].
    rewrite visit_identifier_ceiling by (simpl; lia).
    rewrite set_depth_set_depth. reflexivity.
  - destruct fuel as [|[|[|fuel]]]; try lia.
    change (S (S (S fuel))) with (3 + fuel)%nat.
    rewrite self_ref_step by lia.
    replace (max_recursion_depth - Z.of_nat (S k) + 1)
      with (max_recursion_depth - Z.of_nat k) by lia.
    rewrite IH by lia. reflexivity.
Qed.
(** C7: for a runtime whose scope binds [x := x], resolving [x] at counter
    [d < 100] is one nested resolution of [x] at [d + 1]; at counter [100]
    it raises [RunTimeError('Maximum recursion depth reached')] at once and
    resets the counter to [0]. So from counter [0] exactly 100 nested
    resolutions succeed before the 101st raises, and the runtime ends with
    its counter at [0] and its stack untouched, within a bounded number of
    calls (no native stack overflow). *)
Theorem self_reference_max_depth :
  (forall (fuel : nat) (d : Z), 0 <= d < max_recursion_depth ->
     visit_identifier (3 + fuel) parents "x" (set_depth d rt)
       = dec_depth (visit_identifier fuel parents "x" (set_depth (d + 1) rt)))
  /\ (forall fuel : nat,
     visit_identifier (S fuel) parents "x" (set_depth max_recursion_depth rt)
       = Err (RunTimeError "Maximum recursion depth reached") (set_depth 0 rt))
  /\ (forall fuel : nat, (301 <= fuel)%nat ->
     visit_identifier fuel parents "x" (set_depth 0 rt)
       = Err (RunTimeError "Maximum recursion depth reached") (set_depth 0 rt)).
Proof.
  split; [|split].
  - intros fuel d Hd. apply self_ref_step. lia.
  - intros fuel. rewrite visit_identifier_ceiling by (simpl; lia).
    rewrite set_depth_set_depth. reflexivity.
  - intros fuel Hf.
    replace 0 with (max_recursion_depth - Z.of_nat 100) at 1 by reflexivity.
    apply self_ref_fails. lia.
Qed.

End SelfReference.

Lemma self_reference_max_depth_witness :
  visit_identifier 301 [] "x" (set_depth 0 (mk_runtime [] {[ "x" := [Identifier "x"] ]} 0))
    = Err (RunTimeError "Maximum recursion depth reached")
          (set_depth 0 (mk_runtime [] {[ "x" := [Identifier "x"] ]} 0)).
Proof.
  assert (Hx : scope (mk_runtime [] {[ "x" := [Identifier "x"] ]} 0) !! "x"
               = Some [Identifier "x"]) by (vm_compute; reflexivity).
  destruct (self_reference_max_depth [] _ Hx) as (_ & _ & H).
  apply H. lia.
Defined.

(** ** C8: list blocks *)

(** C8: a [List] block is evaluated in a fresh [RunTime] (empty stack,
    empty scope, counter [0]) whose parent chain starts with the current
    scope; when it finishes, its whole stack is pushed as one [list] value
    and nothing else of the current runtime changes; [{1 2 +}] leaves the
    single value [[3]]. *)
Theorem list_block_single_value :
  (forall (fuel : nat) (parents : list (gmap string Expr)) (items : Expr)
          (rt sub_runtime : RunTime),
     visit_expr fuel (scope rt :: parents) items new_runtime = Ok sub_runtime ->
     visit_atom (S fuel) parents (List items) rt
       = Ok (mk_runtime (stack rt ++ [VSeq (stack sub_runtime)]) (scope rt) (recursion_depth rt)))
  /\ run_source 100 "{1 2 +}" = Some (inr [VSeq [VInt 3]]).
Proof.
  split; [|reflexivity].
  intros fuel parents items rt sub Hsub. cbn [visit_atom]. rewrite Hsub. reflexivity.
Qed.

Lemma list_block_single_value_witness :
  visit_expr 10 [scope new_runtime] [Literal (LInt 1); Literal (LInt 2); Identifier "+"] new_runtime
    = Ok (mk_runtime [VInt 3] ∅ 0)
  /\ visit_atom 11 [] (List [Literal (LInt 1); Literal (LInt 2); Identifier "+"]) new_runtime
    = Ok (mk_runtime (stack new_runtime ++ [VSeq (stack (mk_runtime [VInt 3] ∅ 0))])
                     (scope new_runtime) (recursion_depth new_runtime)).
Proof.
  assert (H : visit_expr 10 [scope new_runtime]
                [Literal (LInt 1); Literal (LInt 2); Identifier "+"] new_runtime
              = Ok (mk_runtime [VInt 3] ∅ 0)) by reflexivity.
  split; [exact H|].
  exact (proj1 list_block_single_value 10%nat [] _ new_runtime _ H).
Defined.

(** ** C9: forcing a quotation *)

Definition chain_name (k : nat) : string := "a" ++ pretty k.

(** [a0 := a1], [a1 := a2], ..., [a98 := a99], [a99 := 1]: resolving [a0]
    takes 100 nested resolutions. *)
Definition chain_scope : gmap string Expr :=
  list_to_map ((chain_name 99, [Literal (LInt 1)])
               :: map (fun k => (chain_name k, [Identifier (chain_name (S k))])) (seq 0 99)).

(** C9 (counterexample): in a fresh runtime with the scope [chain_scope],
    [a0] leaves [[1]], while [[a0] \] raises
    [RunTimeError('Maximum recursion depth reached')] and leaves [[]]: the
    resolution of [\] takes one level of the 100-level budget. *)
Lemma quotation_forcing_one_level_deeper :
  visit_expr 1000 [] [Identifier "a0"] (mk_runtime [] chain_scope 0)
    = Ok (mk_runtime [VInt 1] chain_scope 0)
  /\ visit_expr 1000 [] [Quot [Identifier "a0"]; Identifier "\"] (mk_runtime [] chain_scope 0)
    = Err (RunTimeError "Maximum recursion depth reached") (mk_runtime [] chain_scope 0).
Proof. split; vm_compute; reflexivity. Qed.

(** C9 (amended): if the current scope does not rebind [\] and the counter
    is below the ceiling, [[E] \] evaluates [E] in the same runtime (same
    stack, scope and parent chain) with the counter raised by one, lowered
    again on success; [[1 2 +] \] and [1 2 +] both leave [[3]]. When the
    counter is at the ceiling (100 or more), [[E] \] pushes the quotation,
    then the resolution of [\] raises [Maximum recursion depth reached] and
    resets the counter to 0: [E] is not evaluated. *)
Theorem quotation_forcing :
  (forall (fuel : nat) (parents : list (gmap string Expr)) (e : Expr) (rt : RunTime),
     scope rt !! "\" = None -> recursion_depth rt < max_recursion_depth ->
     visit_expr (4 + fuel) parents [Quot e; Identifier "\"] rt
       = dec_depth (visit_expr fuel parents e (set_depth (recursion_depth rt + 1) rt)))
  /\ (forall (fuel : nat) (parents : list (gmap string Expr)) (e : Expr) (rt : RunTime),
     max_recursion_depth <= recursion_depth rt ->
     visit_expr (4 + fuel) parents [Quot e; Identifier "\"] rt
       = Err (RunTimeError "Maximum recursion depth reached")
             (mk_runtime (stack rt ++ [VQuot e]) (scope rt) 0))
  /\ run_source 100 "[1 2 +] \" = Some (inr [VInt 3])
  /\ run_source 100 "1 2 +" = Some (inr [VInt 3]).
Proof.
  split; [|split; [|split; reflexivity]].
  2:{ intros fuel parents e rt Hd. cbn [visit_expr visit_atom visit_identifier Nat.add].
      replace (Z.leb max_recursion_depth (recursion_depth (push (VQuot e) rt))) with true
        by (symmetry; apply Z.leb_le; exact Hd).
      destruct rt; reflexivity. }
  intros fuel parents e rt Hq Hd. cbn [visit_expr visit_atom visit_identifier Nat.add].
  replace (Z.leb max_recursion_depth (recursion_depth (push (VQuot e) rt))) with false
    by (symmetry; apply Z.leb_gt; exact Hd).
  assert (Hs : scope (set_depth (recursion_depth (push (VQuot e) rt) + 1) (push (VQuot e) rt))
                 !! "\" = None) by (destruct rt; exact Hq).
  rewrite Hs. cbn [BUILTIN_SCOPE String.eqb Ascii.eqb Bool.eqb andb call_builtin].
  unfold stack_args_error, push, set_depth, set_stack. cbn [stack scope recursion_depth].
  rewrite length_app. simpl.
  replace (Nat.ltb (length (stack rt) + 1) 1) with false
    by (symmetry; apply Nat.ltb_ge; lia).
  rewrite pop_snoc.
  replace (set_stack (stack rt) (mk_runtime (stack rt ++ [VQuot e]) (scope rt)
             (recursion_depth rt + 1)))
    with (set_depth (recursion_depth rt + 1) rt) by (destruct rt; reflexivity).
  destruct (dec_depth _); reflexivity.
Qed.

Lemma quotation_forcing_witness :
  scope new_runtime !! "\" = None /\ recursion_depth new_runtime < max_recursion_depth
  /\ visit_expr 14 [] [Quot [Literal (LInt 1); Literal (LInt 2); Identifier "+"]; Identifier "\"]
       new_runtime
     = dec_depth (visit_expr 10 [] [Literal (LInt 1); Literal (LInt 2); Identifier "+"]
                    (set_depth (recursion_depth new_runtime + 1) new_runtime))
  /\ max_recursion_depth <= recursion_depth (mk_runtime [VInt 7] ∅ 100)
  /\ visit_expr 14 [] [Quot [Literal (LInt 1)]; Identifier "\"] (mk_runtime [VInt 7] ∅ 100)
     = Err (RunTimeError "Maximum recursion depth reached")
           (mk_runtime [VInt 7; VQuot [Literal (LInt 1)]] ∅ 0).
Proof.
  assert (Hq : scope new_runtime !! "\" = None) by reflexivity.
  assert (Hd : recursion_depth new_runtime < max_recursion_depth) by (vm_compute; reflexivity).
  assert (Hc : max_recursion_depth <= recursion_depth (mk_runtime [VInt 7] ∅ 100))
    by (vm_compute; discriminate).
  split; [exact Hq|]. split; [exact Hd|].
  split; [exact (proj1 quotation_forcing 10%nat [] _ new_runtime Hq Hd)|].
  split; [exact Hc|].
  exact (proj1 (proj2 quotation_forcing) 10%nat [] [Literal (LInt 1)] _ Hc).
Defined.

(** ** C10: failed lookups and the recursion counter *)

(** A REPL session that first enters [y] (unbound) 100 times. *)
Definition unknown_lines (rest : list string) : list string := repeat "y" 100 ++ rest.

Lemma session_after_unknown_lookups :
  repl_session 100 new_runtime (unknown_lines []) = Some (mk_runtime [] ∅ 100)
  /\ repl_session 100 new_runtime (unknown_lines ["1 dup"]) = Some (mk_runtime [VInt 1] ∅ 0)
  /\ repl_session 100 new_runtime (unknown_lines ["1 dup"; "1 dup"])
     = Some (mk_runtime [VInt 1; VInt 1; VInt 1] ∅ 0).
Proof. split; [|split]; vm_compute; reflexivity. Qed.

(** C10 (counterexample): after 100 failed lookups of [y] the counter of the
    persistent runtime is 100 and the next resolution ([dup] in [1 dup])
    fails with the depth error, but that failure resets the counter to 0, so
    the following [1 dup] succeeds: not every later resolution fails. *)
Lemma unknown_lookups_recover_after_reset :
  repl_session 100 new_runtime (unknown_lines ["1 dup"; "1 dup"])
    = Some (mk_runtime [VInt 1; VInt 1; VInt 1] ∅ 0).
Proof. apply session_after_unknown_lookups. Qed.

(** C10 (amended): below the ceiling, a failed lookup leaves the stack and
    the scope unchanged and the counter raised by one (it is not lowered
    again); at or above the ceiling (100), any resolution fails with
    [Maximum recursion depth reached] and resets the counter to 0. So in a
    persistent runtime 100 failed lookups make the next resolution fail
    with the depth error, after which resolutions succeed again. *)
Theorem unknown_identifier_counter :
  (forall (fuel : nat) (parents : list (gmap string Expr)) (name : string) (rt : RunTime),
     recursion_depth rt < max_recursion_depth ->
     scope rt !! name = None -> BUILTIN_SCOPE name = None -> lookup_parents parents name = None ->
     visit_identifier (S fuel) parents name rt
       = Err (RunTimeError ("Unknown identifier " ++ name))
             (mk_runtime (stack rt) (scope rt) (recursion_depth rt + 1)))
  /\ (forall (fuel : nat) (parents : list (gmap string Expr)) (name : string) (rt : RunTime),
     max_recursion_depth <= recursion_depth rt ->
     visit_identifier (S fuel) parents name rt
       = Err (RunTimeError "Maximum recursion depth reached")
             (mk_runtime (stack rt) (scope rt) 0))
  /\ repl_session 100 new_runtime (unknown_lines []) = Some (mk_runtime [] ∅ 100)
  /\ repl_session 100 new_runtime (unknown_lines ["1 dup"]) = Some (mk_runtime [VInt 1] ∅ 0)
  /\ repl_session 100 new_runtime (unknown_lines ["1 dup"; "1 dup"])
     = Some (mk_runtime [VInt 1; VInt 1; VInt 1] ∅ 0).
Proof.
  split; [|split; [|exact session_after_unknown_lookups]].
  - intros fuel parents name rt Hd Hl Hb Hp.
    rewrite (visit_identifier_unknown fuel parents name rt Hd Hl Hb Hp).
    destruct rt; reflexivity.
  - intros fuel parents name rt Hd.
    rewrite (visit_identifier_ceiling fuel parents name rt Hd).
    destruct rt; reflexivity.
Qed.

Lemma unknown_identifier_counter_witness :
  visit_identifier 1 [] "y" new_runtime
    = Err (RunTimeError "Unknown identifier y") (mk_runtime [] ∅ 1)
  /\ visit_identifier 1 [] "y" (mk_runtime [] ∅ 100)
    = Err (RunTimeError "Maximum recursion depth reached") (mk_runtime [] ∅ 0).
Proof.
  assert (Hd : recursion_depth new_runtime < max_recursion_depth) by (vm_compute; reflexivity).
  assert (Hl : scope new_runtime !! "y" = None) by reflexivity.
  assert (Hb : BUILTIN_SCOPE "y" = None) by reflexivity.
  assert (Hp : lookup_parents [] "y" = None) by reflexivity.
  assert (Hc : max_recursion_depth <= recursion_depth (mk_runtime [] ∅ 100))
    by (vm_compute; discriminate).
  split.
  - exact (proj1 unknown_identifier_counter 0%nat [] "y" new_runtime Hd Hl Hb Hp).
  - exact (proj1 (proj2 unknown_identifier_counter) 0%nat [] "y" _ Hc).
Defined.

(** * Further properties of the evaluator *)

(** The [for atom in expr.atoms] loop of [visit_expr], one turn at a time. *)
Lemma visit_expr_nil (fuel : nat) (parents : list (gmap string Expr)) (rt : RunTime) :
  visit_expr (S fuel) parents [] rt = Ok rt.
Proof. reflexivity. Qed.

Lemma visit_expr_cons (fuel : nat) (parents : list (gmap string Expr)) (a : atom) (e : Expr)
  (rt : RunTime) :
  visit_expr (S fuel) parents (a :: e) rt
  = match visit_atom fuel parents a rt with
    | Ok rt' => visit_expr (S fuel) parents e rt'
    | o => o
    end.
Proof. reflexivity. Qed.

Lemma frame_kept_dec_depth (rt : RunTime) (o : outcome) :
  frame_kept (set_depth (recursion_depth rt + 1) rt) o -> frame_kept rt (dec_depth o).
Proof.
  destruct o as [rt'|e rt'|]; simpl; auto.
  intros [Hs Hd]. split; [exact Hs|]. rewrite Hd. lia.
Qed.

Lemma visit_frame_kept (fuel : nat) :
  (forall parents e rt, frame_kept rt (visit_expr fuel parents e rt))
  /\ (forall parents a rt, frame_kept rt (visit_atom fuel parents a rt))
  /\ (forall parents name rt, frame_kept rt (visit_identifier fuel parents name rt))
  /\ (forall parents b rt, frame_kept rt (call_builtin fuel parents b rt)).
Proof.
  induction fuel as [|f (IHe & IHa & IHi & IHb)]; [repeat split; intros; exact I|].
  split; [|split; [|split]].
  - intros parents e rt.
    revert rt. induction e as [|a e IH]; intros rt; [simpl; auto|].
    rewrite visit_expr_cons.
    specialize (IHa parents a rt).
    destruct (visit_atom f parents a rt) as [rt'|e' rt'|]; cbn [frame_kept] in *; auto.
    destruct IHa as [Hs Hd]. specialize (IH rt').
    destruct (visit_expr (S f) parents e rt'); cbn [frame_kept] in *; auto.
    + destruct IH; split; congruence.
    + congruence.
  - intros parents a rt. cbn [visit_atom].
    destruct a as [l|name|e|items]; simpl; auto.
    destruct (visit_expr f (scope rt :: parents) items new_runtime); simpl; auto.
  - intros parents name rt. cbn [visit_identifier].
    destruct (Z.leb max_recursion_depth (recursion_depth rt)); [simpl; auto|].
    destruct (scope (set_depth (recursion_depth rt + 1) rt) !! name).
    { apply frame_kept_dec_depth, IHe. }
    destruct (BUILTIN_SCOPE name).
    { apply frame_kept_dec_depth, IHb. }
    destruct (lookup_parents parents name).
    { apply frame_kept_dec_depth, IHe. }
    simpl. reflexivity.
  - intros parents b rt. cbn [call_builtin].
    destruct (stack_args_error (num_args b) (stack rt)); [simpl; auto|].
    destruct b; try (destruct (stack_op _ (stack rt)); simpl; auto; fail).
    destruct (pop (stack rt)) as [e|[st q]]; [simpl; auto|].
    destruct q; simpl; auto.
    apply (IHe parents e (set_stack st rt)).
Qed.

Lemma pop_snoc2 (st : list val) (x y : val) :
  pop (st ++ [x; y]) = inr (st ++ [x], y).
Proof. change (st ++ [x; y]) with (st ++ [x] ++ [y]). rewrite app_assoc. apply pop_snoc. Qed.

(** A registry function other than [run_quot], called through its name. *)
Lemma visit_builtin_name (fuel : nat) (parents : list (gmap string Expr)) (name : string)
  (b : builtin) (rt : RunTime) :
  recursion_depth rt < max_recursion_depth ->
  scope rt !! name = None -> BUILTIN_SCOPE name = Some b -> b <> Brun_quot ->
  (num_args b <= length (stack rt))%nat ->
  visit_identifier (S (S fuel)) parents name rt
  = match stack_op b (stack rt) with
    | SOk st => Ok (set_stack st rt)
    | SErr e st => Err e (mk_runtime st (scope rt) (recursion_depth rt + 1))
    end.
Proof.
  intros Hd Hl Hb Hq Hn. cbn [visit_identifier].
  replace (Z.leb max_recursion_depth (recursion_depth rt)) with false
    by (symmetry; apply Z.leb_gt; exact Hd).
  destruct rt as [st sc d]. cbn [scope stack recursion_depth set_depth] in *.
  assert (Hs : stack_args_error (num_args b) st = None)
    by (unfold stack_args_error; rewrite (proj2 (Nat.ltb_ge _ _) Hn); reflexivity).
  rewrite Hl, Hb. cbn [call_builtin]. cbn [stack set_depth]. rewrite Hs.
  destruct b; try (exfalso; apply Hq; reflexivity);
    destruct (stack_op _ st); cbn [dec_depth set_stack set_depth stack scope recursion_depth];
    try reflexivity; unfold set_depth, set_stack; cbn; rewrite Z.add_simpl_r; reflexivity.
Qed.

Lemma stack_op_swap (st : list val) (x y : val) :
  stack_op Bswap_two (st ++ [x; y]) = SOk (st ++ [y; x]).
Proof. cbn [stack_op]. rewrite pop_snoc2, pop_snoc. reflexivity. Qed.

Lemma stack_op_rot (st : list val) (c b a : val) :
  stack_op Brot_three (st ++ [c; b; a]) = SOk (st ++ [b; a; c]).
Proof.
  cbn [stack_op]. change (st ++ [c; b; a]) with (st ++ [c] ++ [b; a]).
  rewrite app_assoc, pop_snoc2, pop_snoc, pop_snoc.
  reflexivity.
Qed.

Lemma stack_op_dup (st : list val) (v : val) :
  stack_op Bdup (st ++ [v]) = SOk (st ++ [v; v]).
Proof. cbn [stack_op]. unfold top. rewrite last_snoc, <- app_assoc. reflexivity. Qed.

Lemma stack_op_drop (st : list val) (v : val) :
  stack_op Bdrop_top (st ++ [v]) = SOk st.
Proof. cbn [stack_op]. rewrite pop_snoc. reflexivity. Qed.

Lemma length_snoc2 (st : list val) (x y : val) : length (st ++ [x; y]) = (length st + 2)%nat.
Proof. rewrite length_app. reflexivity. Qed.

Ltac builtin_side :=
  first [ reflexivity | discriminate | assumption
        | (cbn [scope set_stack]; assumption)
        | (cbn [recursion_depth set_stack]; unfold max_recursion_depth in *; lia)
        | (cbn [num_args stack set_stack]; rewrite ?length_app; cbn [length]; lia) ].

Ltac builtin_call b := rewrite (visit_builtin_name _ _ _ b) by builtin_side.

(** [swap] exchanges the two top items; [swap swap] changes nothing. *)
Theorem swap_two_involutive (fuel : nat) (parents : list (gmap string Expr)) (rt : RunTime)
  (st : list val) (x y : val) :
  recursion_depth rt < max_recursion_depth -> scope rt !! "swap" = None ->
  stack rt = st ++ [x; y] ->
  visit_expr (4 + fuel) parents [Identifier "swap"] rt = Ok (set_stack (st ++ [y; x]) rt)
  /\ visit_expr (4 + fuel) parents [Identifier "swap"; Identifier "swap"] rt = Ok rt.
Proof.
  destruct rt as [st0 sc d]. cbn [stack scope recursion_depth]. intros Hd Hl ->.
  cbn [Nat.add]. split.
  - rewrite visit_expr_cons. cbn [visit_atom]. builtin_call Bswap_two.
    cbn [stack]. rewrite stack_op_swap. reflexivity.
  - rewrite visit_expr_cons. cbn [visit_atom]. builtin_call Bswap_two.
    cbn [stack]. rewrite stack_op_swap. cbv beta iota.
    rewrite visit_expr_cons. cbn [visit_atom]. builtin_call Bswap_two.
    cbn [stack set_stack]. rewrite stack_op_swap. reflexivity.
Qed.

(** [rot] moves the third item to the top; [rot rot rot] changes nothing. *)
Theorem rot_three_cycle (fuel : nat) (parents : list (gmap string Expr)) (rt : RunTime)
  (st : list val) (c b a : val) :
  recursion_depth rt < max_recursion_depth -> scope rt !! "rot" = None ->
  stack rt = st ++ [c; b; a] ->
  visit_expr (4 + fuel) parents [Identifier "rot"] rt = Ok (set_stack (st ++ [b; a; c]) rt)
  /\ visit_expr (4 + fuel) parents [Identifier "rot"; Identifier "rot"; Identifier "rot"] rt
     = Ok rt.
Proof.
  destruct rt as [st0 sc d]. cbn [stack scope recursion_depth]. intros Hd Hl ->.
  cbn [Nat.add]. split.
  - rewrite visit_expr_cons. cbn [visit_atom]. builtin_call Brot_three.
    cbn [stack]. rewrite stack_op_rot. reflexivity.
  - rewrite visit_expr_cons. cbn [visit_atom]. builtin_call Brot_three.
    cbn [stack]. rewrite stack_op_rot. cbv beta iota.
    rewrite visit_expr_cons. cbn [visit_atom]. builtin_call Brot_three.
    cbn [stack set_stack]. rewrite stack_op_rot. cbv beta iota.
    rewrite visit_expr_cons. cbn [visit_atom]. builtin_call Brot_three.
    cbn [stack set_stack]. rewrite stack_op_rot. reflexivity.
Qed.

(** [dup] copies the top item; [dup drop] changes nothing. *)
Theorem dup_drop_identity (fuel : nat) (parents : list (gmap string Expr)) (rt : RunTime)
  (st : list val) (v : val) :
  recursion_depth rt < max_recursion_depth -> scope rt !! "dup" = None ->
  scope rt !! "drop" = None -> stack rt = st ++ [v] ->
  visit_expr (4 + fuel) parents [Identifier "dup"] rt = Ok (set_stack (st ++ [v; v]) rt)
  /\ visit_expr (4 + fuel) parents [Identifier "dup"; Identifier "drop"] rt = Ok rt.
Proof.
  destruct rt as [st0 sc d]. cbn [stack scope recursion_depth]. intros Hd Hl Hl' ->.
  cbn [Nat.add]. split.
  - rewrite visit_expr_cons. cbn [visit_atom]. builtin_call Bdup.
    cbn [stack]. rewrite stack_op_dup. reflexivity.
  - rewrite visit_expr_cons. cbn [visit_atom]. builtin_call Bdup.
    cbn [stack]. rewrite stack_op_dup. cbv beta iota.
    rewrite visit_expr_cons. cbn [visit_atom]. builtin_call Bdrop_top.
    cbn [stack set_stack]. change (st ++ [v; v]) with (st ++ [v] ++ [v]).
    rewrite app_assoc, stack_op_drop. reflexivity.
Qed.

(** On two numbers ([int] or [float]), [+ - * / %] pop [a], then [b], and
    push [b OP a]; when [b OP a] raises ([ZeroDivisionError],
    [OverflowError]), both operands are already gone from the stack and the
    counter stays raised by one. *)
Theorem binary_builtin_pops_operands (fuel : nat) (parents : list (gmap string Expr))
  (name : string) (b : builtin) (f : val -> val -> exn + val) (rt : RunTime)
  (st : list val) (vb va : val) :
  recursion_depth rt < max_recursion_depth -> scope rt !! name = None ->
  BUILTIN_SCOPE name = Some b -> binary_builtin_op b = Some f ->
  is_number vb = true -> is_number va = true ->
  stack rt = st ++ [vb; va] ->
  visit_identifier (S (S fuel)) parents name rt
  = match f vb va with
    | inr v => Ok (mk_runtime (st ++ [v]) (scope rt) (recursion_depth rt))
    | inl e => Err e (mk_runtime st (scope rt) (recursion_depth rt + 1))
    end.
Proof.
  destruct rt as [st0 sc d]. cbn [stack scope recursion_depth]. intros Hd Hl Hb Hf _ _ ->.
  assert (Hop : stack_op b (st ++ [vb; va]) = binary_op f (st ++ [vb; va]))
    by (destruct b; cbn in Hf; try discriminate; injection Hf as <-; reflexivity).
  rewrite (visit_builtin_name _ _ _ b); try builtin_side.
  - cbn [stack]. rewrite Hop. unfold binary_op. rewrite pop_snoc2, pop_snoc.
    destruct (f vb va); reflexivity.
  - intros ->. discriminate.
  - cbn [stack]. rewrite length_app. destruct b; cbn in Hf |- *; try discriminate; lia.
Qed.

(** An expression of literals pushes their values in order. *)
Theorem literals_push_in_order (fuel : nat) (parents : list (gmap string Expr))
  (ls : list lit) (rt : RunTime) :
  visit_expr (S (S fuel)) parents (map Literal ls) rt
  = Ok (set_stack (stack rt ++ map value_of_lit ls) rt).
Proof.
  revert rt. induction ls as [|l ls IH]; intros rt.
  - rewrite app_nil_r. destruct rt; reflexivity.
  - cbn [map]. rewrite visit_expr_cons. cbn [visit_atom]. rewrite IH.
    destruct rt; cbn. rewrite <- app_assoc. reflexivity.
Qed.

(** The atoms of an expression, and the statements of a program, run one
    after the other on the runtime the previous one left; the first
    exception stops the rest. *)
Theorem evaluation_sequences (fuel : nat) :
  (forall parents (e1 e2 : Expr) rt,
     visit_expr (S fuel) parents (e1 ++ e2) rt
     = match visit_expr (S fuel) parents e1 rt with
       | Ok rt' => visit_expr (S fuel) parents e2 rt'
       | o => o
       end)
  /\ (forall (p1 p2 : Program) rt,
     visit_program fuel (p1 ++ p2) rt
     = match visit_program fuel p1 rt with
       | Ok rt' => visit_program fuel p2 rt'
       | o => o
       end).
Proof.
  split.
  - intros parents e1 e2. induction e1 as [|a e1 IH]; intros rt; [reflexivity|].
    cbn [app]. rewrite !visit_expr_cons.
    destruct (visit_atom fuel parents a rt); [apply IH|reflexivity|reflexivity].
  - induction p1 as [|s p1 IH]; intros p2 rt; [reflexivity|].
    destruct s as [w e|e]; cbn [app visit_program]; [apply IH|].
    destruct (visit_expr fuel [] e rt); [apply IH|reflexivity|reflexivity].
Qed.

(** Evaluation never writes the scope of the frame it runs in, whether it
    returns or raises. *)
Theorem evaluation_keeps_scope (fuel : nat) (parents : list (gmap string Expr)) (e : Expr)
  (rt rt' : RunTime) (ex : exn) :
  visit_expr fuel parents e rt = Ok rt' \/ visit_expr fuel parents e rt = Err ex rt' ->
  scope rt' = scope rt.
Proof.
  pose proof (proj1 (visit_frame_kept fuel) parents e rt) as H.
  intros [Ho|Ho]; rewrite Ho in H; [apply H|exact H].
Qed.

(** An evaluation that returns normally leaves the recursion counter as it
    found it. *)
Theorem evaluation_restores_depth (fuel : nat) (parents : list (gmap string Expr)) (e : Expr)
  (rt rt' : RunTime) :
  visit_expr fuel parents e rt = Ok rt' -> recursion_depth rt' = recursion_depth rt.
Proof.
  pose proof (proj1 (visit_frame_kept fuel) parents e rt) as H.
  intros Ho; rewrite Ho in H; apply H.
Qed.

Lemma lstrip_all_space (s : string) :
  forall_chars is_py_space s = true -> lstrip s = EmptyString.
Proof.
  induction s as [|c s IH]; [reflexivity|]. cbn. intros H.
  apply andb_prop in H as [Hc Hs]. rewrite Hc. apply IH, Hs.
Qed.

(** A line of whitespace only (including the empty line) is skipped: the
    runtime is kept as it is. *)
Theorem repl_blank_line (fuel : nat) (runtime : RunTime) (line : string) :
  forall_chars is_py_space line = true -> repl_line fuel runtime line = Some runtime.
Proof.
  intros H. unfold repl_line, strip. rewrite (lstrip_all_space line H). reflexivity.
Qed.

(** * Further properties of the lexer *)

Module LexerFacts.
Import Lexer.

Lemma span_all (p : ascii -> bool) (s : string) :
  forall_chars p s = true -> span p s = (s, EmptyString).
Proof.
  induction s as [|c s IH]; [reflexivity|]. cbn. intros H.
  apply andb_prop in H as [Hc Hs]. rewrite Hc, (IH Hs). reflexivity.
Qed.

Lemma digits_fold_acc (l : list ascii) (a : Z) :
  fold_left (fun acc c => acc * 10 + (code c - 48)) l a
  = a * 10 ^ Z.of_nat (length l) + fold_left (fun acc c => acc * 10 + (code c - 48)) l 0.
Proof.
  revert a. induction l as [|c l IH]; intros a; cbn [fold_left length].
  - lia.
  - rewrite IH, (IH (0 * 10 + (code c - 48))). rewrite Nat2Z.inj_succ, Z.pow_succ_r by lia. lia.
Qed.

Lemma length_list_ascii (s : string) :
  length (list_ascii_of_string s) = String.length s.
Proof. induction s as [|c s IH]; simpl; congruence. Qed.

Lemma digits_value_cons (c : ascii) (s : string) :
  digits_value (String c s) = (code c - 48) * 10 ^ Z.of_nat (String.length s) + digits_value s.
Proof.
  unfold digits_value. cbn [list_ascii_of_string fold_left].
  rewrite digits_fold_acc, length_list_ascii. lia.
Qed.

Lemma pretty_N_char_digit (d : N) : isdigit (pretty_N_char d) = true.
Proof. unfold pretty_N_char. repeat case_match; reflexivity. Qed.

Lemma pretty_N_char_code (d : N) : (d < 10)%N -> code (pretty_N_char d) - 48 = Z.of_N d.
Proof.
  intros Hd.
  assert (d = 0 \/ d = 1 \/ d = 2 \/ d = 3 \/ d = 4 \/ d = 5 \/ d = 6 \/ d = 7 \/ d = 8
          \/ d = 9)%N as Hc by lia.
  repeat destruct Hc as [->|Hc]; try reflexivity. subst. reflexivity.
Qed.

Lemma pretty_N_go_digits (x : N) :
  forall s, forall_chars isdigit s = true ->
  forall_chars isdigit (pretty_N_go x s) = true
  /\ digits_value (pretty_N_go x s)
     = Z.of_N x * 10 ^ Z.of_nat (String.length s) + digits_value s
  /\ (s <> EmptyString -> pretty_N_go x s <> EmptyString).
Proof.
  induction (N.lt_wf_0 x) as [x _ IH]. intros s Hs.
  destruct (N.eq_dec x 0%N) as [->|Hx].
  { rewrite pretty_N_go_0. split; [exact Hs|split; [lia|auto]]. }
  rewrite pretty_N_go_step by lia.
  set (c := pretty_N_char (x `mod` 10)).
  assert (Hc : forall_chars isdigit (String c s) = true)
    by (cbn [forall_chars]; unfold c; rewrite pretty_N_char_digit; exact Hs).
  destruct (IH (x `div` 10)%N ltac:(apply N.div_lt; lia) (String c s) Hc) as (H1 & H2 & H3).
  split; [exact H1|split].
  - rewrite H2, digits_value_cons. unfold c. rewrite pretty_N_char_code by (apply N.mod_lt; lia).
    cbn [String.length]. rewrite Nat2Z.inj_succ, Z.pow_succ_r by lia.
    rewrite (N.div_mod x 10) at 3 by lia. rewrite N2Z.inj_add, N2Z.inj_mul. lia.
  - intros _. apply H3. discriminate.
Qed.

Lemma pretty_N_digits (n : N) :
  forall_chars isdigit (pretty n) = true /\ digits_value (pretty n) = Z.of_N n
  /\ pretty n <> EmptyString.
Proof.
  unfold pretty, pretty_N. case_decide as Hn.
  - subst. split; [reflexivity|split; [reflexivity|discriminate]].
  - destruct (pretty_N_go_digits n EmptyString eq_refl) as (H1 & H2 & H3).
    split; [exact H1|split; [rewrite H2; cbn; lia|]].
    rewrite pretty_N_go_step by lia. apply pretty_N_go_digits; [|discriminate].
    cbn [forall_chars]. rewrite pretty_N_char_digit. reflexivity.
Qed.

(** What [next_token] tests on a digit before [isdigit]. *)
Lemma digit_not_symbol (c : ascii) :
  isdigit c = true ->
  Ascii.eqb c " " = false /\ Ascii.eqb c newline = false /\ in_str c "([{" = false
  /\ in_str c ")]}" = false /\ Ascii.eqb c ":" = false.
Proof. intros H. destruct c as [[] [] [] [] [] [] [] []]; vm_compute in H |- *; easy. Qed.

End LexerFacts.

(** A run of at most 4300 decimal digits lexes as one [int] literal with
    its decimal value (leading zeros allowed, as [int()] allows them); a
    longer run raises the [ValueError] of [int()]'s digit limit. In
    particular the decimal text of a natural number of at most 4300 digits
    lexes back to that number. *)
Theorem lex_decimal_integer :
  (forall (c : ascii) (s : string), forall_chars Lexer.isdigit (String c s) = true ->
     (String.length (String c s) <= 4300)%nat ->
     Lexer.parse (String c s)
     = Some (inr [TLiteral (LInt (Lexer.digits_value (String c s)))]))
  /\ (forall (c : ascii) (s : string), forall_chars Lexer.isdigit (String c s) = true ->
     (4300 < String.length (String c s))%nat ->
     Lexer.parse (String c s)
     = Some (inl (ValueError ("Exceeds the limit (4300 digits) for integer string conversion: value has "
                              ++ pretty (String.length (String c s))
                              ++ " digits; use sys.set_int_max_str_digits() to increase the limit"))))
  /\ (forall n : N, (String.length (pretty n) <= 4300)%nat ->
     Lexer.parse (pretty n) = Some (inr [TLiteral (LInt (Z.of_N n))])).
Proof.
  assert (Hstart : forall (c : ascii) (s : string), forall_chars Lexer.isdigit (String c s) = true ->
     Lexer.parse (String c s)
     = match Lexer.int_token (String c s) EmptyString with
       | inl e => Some (inl e)
       | inr (t, _) => Some (inr [t])
       end).
  { intros c s H. pose proof H as H'. cbn [forall_chars] in H'. apply andb_prop in H' as [Hc _].
    destruct (LexerFacts.digit_not_symbol c Hc) as (E1 & E2 & E3 & E4 & E5).
    unfold Lexer.parse. cbn [String.length Lexer.parse_loop]. unfold Lexer.next_token.
    cbn [Lexer.skip_spaces]. rewrite E1, E2, E3, E4, E5, Hc.
    unfold Lexer._get_number_token. rewrite (LexerFacts.span_all _ _ H).
    unfold Lexer.int_token. destruct (Lexer.int_of_digits _); reflexivity. }
  assert (Hrun : forall (c : ascii) (s : string), forall_chars Lexer.isdigit (String c s) = true ->
     (String.length (String c s) <= 4300)%nat ->
     Lexer.parse (String c s)
     = Some (inr [TLiteral (LInt (Lexer.digits_value (String c s)))])).
  { intros c s H Hl. rewrite (Hstart c s H).
    unfold Lexer.int_token, Lexer.int_of_digits.
    replace (4300 <? String.length (String c s))%nat with false
      by (symmetry; apply Nat.ltb_ge; exact Hl).
    reflexivity. }
  split; [exact Hrun|]. split.
  - intros c s H Hl. rewrite (Hstart c s H).
    unfold Lexer.int_token, Lexer.int_of_digits.
    replace (4300 <? String.length (String c s))%nat with true
      by (symmetry; apply Nat.ltb_lt; exact Hl).
    reflexivity.
  - intros n Hl.
    destruct (LexerFacts.pretty_N_digits n) as (H1 & H2 & H3).
    destruct (pretty n) as [|c s] eqn:E; [contradiction|].
    rewrite (Hrun c s H1 Hl), H2. reflexivity.
Qed.

Module LexerFacts2.
Import Lexer.

Lemma identifier_char_not_symbol (c : ascii) :
  identifier_char c = true -> isdigit c = false ->
  Ascii.eqb c " " = false /\ Ascii.eqb c newline = false /\ in_str c "([{" = false
  /\ in_str c ")]}" = false /\ Ascii.eqb c ":" = false /\ isdigit c = false
  /\ (Ascii.eqb c squote || Ascii.eqb c dquote) = false /\ in_str c OPERATOR_SYMBOLS = false.
Proof.
  intros H Hd. destruct c as [[] [] [] [] [] [] [] []]; vm_compute in H, Hd |- *; easy.
Qed.

Lemma quote_not_symbol (q : ascii) :
  q = squote \/ q = dquote ->
  Ascii.eqb q " " = false /\ Ascii.eqb q newline = false /\ in_str q "([{" = false
  /\ in_str q ")]}" = false /\ Ascii.eqb q ":" = false /\ isdigit q = false
  /\ (Ascii.eqb q squote || Ascii.eqb q dquote) = true /\ Ascii.eqb q backslash = false.
Proof. intros [->| ->]; vm_compute; easy. Qed.

Lemma string_body_plain (quot : ascii) (s : string) :
  forall fuel res rest, forall_chars (plain_char quot) s = true -> (String.length s < fuel)%nat ->
  string_body fuel quot (s ++ String quot rest) res
  = Some (inr (res ++ map code (list_ascii_of_string s), rest)).
Proof.
  induction s as [|c s IH]; intros fuel res rest Hs Hf; destruct fuel as [|f]; try lia.
  - change (EmptyString ++ String quot rest)%string with (String quot rest).
    cbn [string_body]. rewrite Ascii.eqb_refl, app_nil_r. reflexivity.
  - cbn [forall_chars] in Hs. apply andb_prop in Hs as [Hc Hs].
    unfold plain_char in Hc. apply andb_prop in Hc as [Hc Hn]. apply andb_prop in Hc as [Hq Hb].
    apply negb_true_iff in Hq, Hb, Hn.
    change (String c s ++ String quot rest)%string with (String c (s ++ String quot rest)).
    cbn [string_body]. rewrite Hq, Hn, Hb.
    rewrite IH by (cbn [String.length] in Hf; lia || assumption).
    cbn [list_ascii_of_string map]. rewrite <- app_assoc. reflexivity.
Qed.

Lemma string_body_unclosed (quot : ascii) (s : string) :
  forall fuel res, forall_chars (plain_char quot) s = true -> (String.length s < fuel)%nat ->
  string_body fuel quot s res = Some (inl (error "Unexpected EOF")).
Proof.
  induction s as [|c s IH]; intros fuel res Hs Hf; destruct fuel as [|f]; try lia.
  - reflexivity.
  - cbn [forall_chars] in Hs. apply andb_prop in Hs as [Hc Hs].
    unfold plain_char in Hc. apply andb_prop in Hc as [Hc Hn]. apply andb_prop in Hc as [Hq Hb].
    apply negb_true_iff in Hq, Hb, Hn.
    cbn [string_body]. rewrite Hq, Hn, Hb.
    apply IH; [exact Hs|cbn [String.length] in Hf; lia].
Qed.

Lemma string_length_app (s t : string) :
  String.length (s ++ t) = (String.length s + String.length t)%nat.
Proof.
  induction s as [|c s IH]; [reflexivity|].
  change (String c s ++ t)%string with (String c (s ++ t)). cbn [String.length]. rewrite IH.
  reflexivity.
Qed.

End LexerFacts2.

(** A name made of identifier characters that does not start with a digit
    lexes as one [IDENTIFIER] token carrying the whole name. *)
Theorem lex_identifier_word (c : ascii) (s : string) :
  identifier_char c = true -> Lexer.isdigit c = false -> forall_chars identifier_char s = true ->
  Lexer.parse (String c s) = Some (inr [TIdentifier (String c s)]).
Proof.
  intros Hc Hd Hs.
  destruct (LexerFacts2.identifier_char_not_symbol c Hc Hd) as (E1 & E2 & E3 & E4 & E5 & E6 & E7 & E8).
  unfold Lexer.parse. cbn [String.length Lexer.parse_loop]. unfold Lexer.next_token.
  cbn [Lexer.skip_spaces]. rewrite E1, E2, E3, E4, E5, E6, E7.
  unfold Lexer._get_identifier_token. rewrite E8.
  rewrite (LexerFacts.span_all _ (String c s)) by (cbn [forall_chars]; fold (identifier_char c);
                                                  rewrite Hc; exact Hs).
  reflexivity.
Qed.

(** A quoted text with no quote of its kind, no backslash and no newline
    lexes as one [str] literal holding exactly its characters. *)
Theorem lex_plain_string (quot : ascii) (s : string) :
  quot = Lexer.squote \/ quot = Lexer.dquote -> forall_chars (plain_char quot) s = true ->
  Lexer.parse (String quot (s ++ String quot EmptyString))
  = Some (inr [TLiteral (LStr (map Lexer.code (list_ascii_of_string s)))]).
Proof.
  intros Hq Hs.
  destruct (LexerFacts2.quote_not_symbol quot Hq) as (E1 & E2 & E3 & E4 & E5 & E6 & E7 & _).
  unfold Lexer.parse. cbn [String.length Lexer.parse_loop]. unfold Lexer.next_token.
  cbn [Lexer.skip_spaces]. rewrite E1, E2, E3, E4, E5, E6, E7.
  rewrite LexerFacts2.string_body_plain by (try exact Hs; rewrite LexerFacts2.string_length_app; cbn; lia).
  reflexivity.
Qed.

(** A string literal whose closing quote is missing raises
    [LexerError('Token error: Unexpected EOF')]. *)
Theorem lex_unclosed_string (quot : ascii) (s : string) :
  quot = Lexer.squote \/ quot = Lexer.dquote -> forall_chars (plain_char quot) s = true ->
  Lexer.parse (String quot s) = Some (inl (LexerError "Token error: Unexpected EOF")).
Proof.
  intros Hq Hs.
  destruct (LexerFacts2.quote_not_symbol quot Hq) as (E1 & E2 & E3 & E4 & E5 & E6 & E7 & _).
  unfold Lexer.parse. cbn [String.length Lexer.parse_loop]. unfold Lexer.next_token.
  cbn [Lexer.skip_spaces]. rewrite E1, E2, E3, E4, E5, E6, E7.
  rewrite LexerFacts2.string_body_unclosed by (try exact Hs; lia).
  reflexivity.
Qed.

Module LexerFacts3.
Import Lexer.

Lemma string_body_plain_prefix (quot : ascii) (s : string) :
  forall fuel res t, forall_chars (plain_char quot) s = true ->
  string_body (String.length s + fuel) quot (s ++ t) res
  = string_body fuel quot t (res ++ map code (list_ascii_of_string s)).
Proof.
  induction s as [|c s IH]; intros fuel res t Hs.
  - cbn. rewrite app_nil_r. reflexivity.
  - cbn [forall_chars] in Hs. apply andb_prop in Hs as [Hc Hs].
    unfold plain_char in Hc. apply andb_prop in Hc as [Hc Hn]. apply andb_prop in Hc as [Hq Hb].
    apply negb_true_iff in Hq, Hb, Hn.
    change (String c s ++ t)%string with (String c (s ++ t)).
    cbn [String.length Nat.add string_body]. rewrite Hq, Hn, Hb.
    rewrite IH by exact Hs.
    cbn [list_ascii_of_string map]. rewrite <- app_assoc. reflexivity.
Qed.

Lemma string_body_unknown_escape (fuel : nat) (quot e : ascii) (rest : string) (res : list Z) :
  Ascii.eqb backslash quot = false -> escape_map e = None ->
  Ascii.eqb e "x" = false -> Ascii.eqb e "u" = false -> Ascii.eqb e "U" = false ->
  string_body (S fuel) quot (String backslash (String e rest)) res
  = string_body fuel quot rest (res ++ [92; code e]).
Proof.
  intros Hbq He Hx Hu HU. cbn [string_body]. rewrite Hbq.
  replace (Ascii.eqb backslash newline) with false by reflexivity.
  replace (Ascii.eqb backslash backslash) with true by reflexivity.
  rewrite He, Hx, Hu, HU. reflexivity.
Qed.

End LexerFacts3.

(** Inside a string literal, a backslash before a character that is not one
    of the known escapes ([n t r b f], backslash, both quotes, [x u U]) is
    kept: the literal holds the text before it, the backslash, the
    character, and the text after it. *)
Theorem lex_unknown_escape_kept (quot e : ascii) (s1 s2 : string) :
  quot = Lexer.squote \/ quot = Lexer.dquote -> Lexer.escape_map e = None ->
  Ascii.eqb e "x" = false -> Ascii.eqb e "u" = false -> Ascii.eqb e "U" = false ->
  forall_chars (plain_char quot) s1 = true -> forall_chars (plain_char quot) s2 = true ->
  Lexer.parse (String quot (s1 ++ String Lexer.backslash (String e (s2 ++ String quot EmptyString))))
  = Some (inr [TLiteral (LStr (map Lexer.code (list_ascii_of_string s1) ++ [92; Lexer.code e]
                               ++ map Lexer.code (list_ascii_of_string s2)))]).
Proof.
  intros Hq He Hx Hu HU H1 H2.
  destruct (LexerFacts2.quote_not_symbol quot Hq) as (E1 & E2 & E3 & E4 & E5 & E6 & E7 & E8).
  unfold Lexer.parse. cbn [String.length Lexer.parse_loop]. unfold Lexer.next_token.
  cbn [Lexer.skip_spaces]. rewrite E1, E2, E3, E4, E5, E6, E7.
  rewrite LexerFacts2.string_length_app. cbn [String.length].
  rewrite LexerFacts2.string_length_app. cbn [String.length].
  replace (S (String.length s1 + S (S (String.length s2 + 1))))%nat
    with (String.length s1 + S (S (S (String.length s2 + 1))))%nat by lia.
  rewrite LexerFacts3.string_body_plain_prefix by exact H1.
  assert (Hbq : Ascii.eqb Lexer.backslash quot = false) by (rewrite Ascii.eqb_sym; exact E8).
  rewrite LexerFacts3.string_body_unknown_escape by assumption.
  rewrite LexerFacts2.string_body_plain by (exact H2 || lia).
  rewrite <- app_assoc. reflexivity.
Qed.

Module LexerTermination.
Import Lexer.

Lemma span_rest_le (p : ascii -> bool) (s : string) :
  (String.length (snd (span p s)) <= String.length s)%nat.
Proof.
  induction s as [|c s IH]; cbn; [lia|].
  destruct (p c); [destruct (span p s) as [run rest]; cbn in *; lia|cbn; lia].
Qed.

Lemma span_rest_lt (p : ascii -> bool) (c : ascii) (s : string) :
  p c = true -> (String.length (snd (span p (String c s))) < String.length (String c s))%nat.
Proof.
  intros Hc. cbn. rewrite Hc. pose proof (span_rest_le p s) as H.
  destruct (span p s) as [run rest]. cbn in *. lia.
Qed.

Lemma skip_spaces_le (s : string) : (String.length (skip_spaces s) <= String.length s)%nat.
Proof. induction s as [|c s IH]; cbn; [lia|]. destruct (Ascii.eqb c " "); cbn; lia. Qed.

Lemma skip_spaces_head (s : string) (c : ascii) (s' : string) :
  skip_spaces s = String c s' -> Ascii.eqb c " " = false.
Proof.
  induction s as [|d s IH]; cbn; [discriminate|].
  destruct (Ascii.eqb d " ") eqn:E; [exact IH|]. intros [= -> _]. exact E.
Qed.

Lemma read_hex_digits_rest (count k : nat) (s : string) (ds rest : string) :
  read_hex_digits count k s = inr (ds, rest) -> (String.length rest <= String.length s)%nat.
Proof.
  revert s ds. induction k as [|k IH]; intros s ds; cbn.
  - intros [= _ ->]. lia.
  - destruct s as [|c s]; [discriminate|]. destruct (is_hex c); [|discriminate].
    destruct (read_hex_digits count k s) as [e|[ds' rest']] eqn:E; [discriminate|].
    intros [= _ ->]. apply IH in E. cbn. lia.
Qed.

Lemma progress_mono {A} (n m : nat) (r : option (exn + (A * string))) :
  (m <= n)%nat -> lex_progress m r -> lex_progress n r.
Proof. destruct r as [[e|[x rest]]|]; cbn; auto; lia. Qed.

Lemma string_body_progress (fuel : nat) :
  forall quot s res, (String.length s < fuel)%nat ->
  lex_progress (String.length s) (string_body fuel quot s res).
Proof.
  induction fuel as [|f IH]; intros quot s res Hf; [lia|].
  destruct s as [|c s']; cbn [string_body]; [exact I|].
  destruct (Ascii.eqb c quot); [cbn; lia|].
  destruct (Ascii.eqb c newline); [exact I|].
  cbn [String.length] in *.
  destruct (Ascii.eqb c backslash).
  2: { eapply progress_mono; [|apply IH; lia]. lia. }
  destruct s' as [|e s'']; [exact I|]. cbn [String.length] in *.
  destruct (escape_map e).
  { eapply progress_mono; [|apply IH; lia]. lia. }
  assert (Hhex : forall k, lex_progress (S (S (String.length s'')))
    (match read_hex_digits k k s'' with
     | inl ex => Some (inl ex)
     | inr (ds, rest) =>
         match chr (hex_digits_value ds) with
         | inl ex => Some (inl ex)
         | inr z => string_body f quot rest (res ++ [z])
         end
     end)).
  { intros k. destruct (read_hex_digits k k s'') as [ex|[ds rest]] eqn:E; [exact I|].
    apply read_hex_digits_rest in E.
    destruct (chr (hex_digits_value ds)); [exact I|].
    eapply progress_mono; [|apply IH; lia]. lia. }
  destruct (Ascii.eqb e "x"); [apply Hhex|].
  destruct (Ascii.eqb e "u"); [apply Hhex|].
  destruct (Ascii.eqb e "U"); [apply Hhex|].
  eapply progress_mono; [|apply IH; lia]. lia.
Qed.

Lemma identifier_start (c : ascii) :
  Ascii.eqb c " " = false -> Ascii.eqb c newline = false -> in_str c "([{" = false ->
  in_str c ")]}" = false -> Ascii.eqb c ":" = false ->
  (Ascii.eqb c squote || Ascii.eqb c dquote) = false -> in_str c OPERATOR_SYMBOLS = false ->
  identifier_char c = true.
Proof.
  intros H1 H2 H3 H4 H5 H6 H7.
  destruct c as [[] [] [] [] [] [] [] []]; vm_compute in *; easy.
Qed.

Lemma next_token_progress (fuel : nat) (s : string) :
  s <> EmptyString -> (String.length s <= fuel)%nat ->
  lex_progress (String.length s) (next_token fuel s).
Proof.
  intros Hne Hf. unfold next_token.
  pose proof (skip_spaces_le s) as Hle.
  destruct (skip_spaces s) as [|c s'] eqn:Hs; [exact I|].
  pose proof (skip_spaces_head s c s' Hs) as Hsp.
  cbn [String.length] in Hle.
  destruct (Ascii.eqb c newline) eqn:E1; [cbn; lia|].
  destruct (in_str c "([{") eqn:E2; [cbn; lia|].
  destruct (in_str c ")]}") eqn:E3; [cbn; lia|].
  destruct (Ascii.eqb c ":") eqn:E4.
  { unfold _get_assignment_token. destruct s' as [|d s'']; cbn [lex_progress]; [cbn; lia|].
    destruct (Ascii.eqb d "="); cbn in *; lia. }
  destruct (isdigit c) eqn:E5.
  { unfold _get_number_token.
    pose proof (span_rest_lt isdigit c s' E5) as H1.
    destruct (span isdigit (String c s')) as [d1 r1]. cbn [snd] in H1.
    destruct r1 as [|d r2];
      [unfold int_token, int_of_digits; destruct (_ <? _)%nat; cbn in *; [exact I | lia]|].
    destruct (Ascii.eqb d ".");
      [|unfold int_token, int_of_digits; destruct (_ <? _)%nat; cbn in *; [exact I | lia]].
    pose proof (span_rest_le isdigit r2) as H2.
    destruct (span isdigit r2) as [d2 r3]. cbn in *. lia. }
  destruct (Ascii.eqb c squote || Ascii.eqb c dquote) eqn:E6.
  { pose proof (string_body_progress fuel c s' [] ltac:(lia)) as H.
    destruct (string_body fuel c s' []) as [[e|[res rest]]|]; cbn in *; auto; lia. }
  unfold _get_identifier_token.
  destruct (in_str c OPERATOR_SYMBOLS) eqn:E7; [cbn; lia|].
  pose proof (identifier_start c Hsp E1 E2 E3 E4 E6 E7) as Hid.
  pose proof (span_rest_lt identifier_char c s' Hid) as H.
  unfold identifier_char in H.
  destruct (span _ (String c s')) as [run rest]. cbn in *. lia.
Qed.

Lemma parse_loop_total (fuel : nat) :
  forall s tokens, (String.length s < fuel)%nat -> parse_loop fuel s tokens <> None.
Proof.
  induction fuel as [|f IH]; intros s tokens Hf; [lia|].
  destruct s as [|c s']; cbn [parse_loop]; [discriminate|].
  pose proof (next_token_progress f (String c s') ltac:(discriminate) ltac:(lia)) as H.
  destruct (next_token f (String c s')) as [[e|[t rest]]|]; cbn in H; [discriminate| |contradiction].
  apply IH. cbn [String.length] in *. lia.
Qed.

End LexerTermination.

(** The lexer always terminates: on every source text it returns its token
    list or raises an exception, and never loops. *)
Theorem lexer_terminates (source : string) : Lexer.parse source <> None.
Proof.
  destruct source as [|c s]; [discriminate|].
  apply LexerTermination.parse_loop_total. lia.
Qed.

(** * Further properties of the parser *)

Module ParserFacts.
Import Parser.

Lemma parse_expression_simple (xs : list (lit + string)) :
  forall fuel rest expr, expr_continues rest = false -> (length xs < fuel)%nat ->
  _parse_expression fuel (map simple_token xs ++ rest) expr
  = Some (inr (expr ++ map simple_atom xs, rest)).
Proof.
  induction xs as [|x xs IH]; intros fuel rest expr Hr Hf; destruct fuel as [|f]; try (cbn in Hf; lia).
  - cbn [map app _parse_expression]. rewrite Hr, app_nil_r. reflexivity.
  - cbn [map app _parse_expression].
    replace (expr_continues (simple_token x :: map simple_token xs ++ rest)) with true
      by (destruct x; reflexivity).
    destruct f as [|f']; [cbn in Hf; lia|].
    replace (_parse_atom (S f') (simple_token x :: map simple_token xs ++ rest))
      with (Some (inr (simple_atom x, map simple_token xs ++ rest) : exn + (atom * list Token)))
      by (destruct x; reflexivity).
    rewrite IH by (auto; cbn in Hf; lia).
    rewrite <- app_assoc. reflexivity.
Qed.

End ParserFacts.

(** A line of literals and identifiers parses to one expression statement
    holding them in order. *)
Theorem parse_simple_line (xs : list (lit + string)) (fuel : nat) :
  xs <> [] -> (length xs + 2 <= fuel)%nat ->
  Parser.parse fuel (map simple_token xs) = Some (inr [SExpr (map simple_atom xs)]).
Proof.
  intros Hne Hf. destruct fuel as [|f]; [lia|].
  destruct xs as [|x xs]; [contradiction|].
  unfold Parser.parse. cbn [map Parser._parse_program].
  unfold Parser.parse_statement.
  replace (Parser._is_declaration (simple_token x :: map simple_token xs)) with false
    by (destruct xs as [|[] ?]; reflexivity).
  rewrite <- (app_nil_r (simple_token x :: map simple_token xs)).
  change (simple_token x :: map simple_token xs) with (map simple_token (x :: xs)).
  rewrite ParserFacts.parse_expression_simple by (reflexivity || (cbn in *; lia)).
  destruct f as [|f']; [cbn in Hf; lia|]. reflexivity.
Qed.

(** [name := atoms] parses to a declaration binding [name] to the atoms
    (an empty right-hand side is allowed). *)
Theorem parse_declaration_line (name : string) (xs : list (lit + string)) (fuel : nat) :
  (length xs + 2 <= fuel)%nat ->
  Parser.parse fuel (TIdentifier name :: TAssign :: map simple_token xs)
  = Some (inr [Decl name (map simple_atom xs)]).
Proof.
  intros Hf. destruct fuel as [|f]; [lia|].
  unfold Parser.parse. cbn [Parser._parse_program].
  unfold Parser.parse_statement. cbn [Parser._is_declaration token_type Parser.TokenType_eqb].
  unfold Parser._parse_declaration. cbn [Parser.consume token_type Parser.TokenType_eqb].
  rewrite <- (app_nil_r (map simple_token xs)).
  rewrite ParserFacts.parse_expression_simple by (reflexivity || lia).
  destruct f as [|f']; [lia|]. reflexivity.
Qed.

Module ParserBrackets.
Import Parser.

Lemma parse_program_step (fuel : nat) (t : Token) (ts : list Token) (program : Program) :
  _parse_program (S fuel) (t :: ts) program
  = match parse_statement fuel (t :: ts) with
    | None => None
    | Some (inl e) => Some (inl e)
    | Some (inr (st, ts')) => _parse_program fuel ts' (program ++ [st])
    end.
Proof. reflexivity. Qed.



End ParserBrackets.

Module ParserRoundTrip.
Import Parser.












End ParserRoundTrip.





(** A declaration whose name is not an [IDENTIFIER] token is rejected by
    [consume(IDENTIFIER)]. *)
Theorem parse_declaration_needs_identifier (t : Token) (rest : list Token) (fuel : nat) :
  (0 < fuel)%nat -> token_type t <> IDENTIFIER ->
  Parser.parse fuel (t :: TAssign :: rest)
  = Some (inl (ParserError ("Expected TokenType.IDENTIFIER but got "
                            ++ Parser.type_str (token_type t)))).
Proof.
  intros Hf Ht. destruct fuel as [|f]; [lia|].
  unfold Parser.parse. rewrite ParserBrackets.parse_program_step.
  unfold Parser.parse_statement, Parser._parse_declaration.
  cbn [Parser._is_declaration token_type Parser.TokenType_eqb Parser.consume].
  destruct t; cbn in Ht |- *; try congruence; reflexivity.
Qed.

(** * Instances of the further properties *)

Lemma swap_two_involutive_witness :
  visit_expr 4 [] [Identifier "swap"] (mk_runtime [VInt 1; VInt 2] ∅ 0)
    = Ok (set_stack [VInt 2; VInt 1] (mk_runtime [VInt 1; VInt 2] ∅ 0))
  /\ visit_expr 4 [] [Identifier "swap"; Identifier "swap"] (mk_runtime [VInt 1; VInt 2] ∅ 0)
    = Ok (mk_runtime [VInt 1; VInt 2] ∅ 0).
Proof.
  exact (swap_two_involutive 0 [] (mk_runtime [VInt 1; VInt 2] ∅ 0) [] (VInt 1) (VInt 2)
           ltac:(vm_compute; reflexivity) ltac:(vm_compute; reflexivity) eq_refl).
Defined.

Lemma rot_three_cycle_witness :
  visit_expr 4 [] [Identifier "rot"] (mk_runtime [VInt 1; VInt 2; VInt 3] ∅ 0)
    = Ok (set_stack [VInt 2; VInt 3; VInt 1] (mk_runtime [VInt 1; VInt 2; VInt 3] ∅ 0))
  /\ visit_expr 4 [] [Identifier "rot"; Identifier "rot"; Identifier "rot"]
       (mk_runtime [VInt 1; VInt 2; VInt 3] ∅ 0)
    = Ok (mk_runtime [VInt 1; VInt 2; VInt 3] ∅ 0).
Proof.
  exact (rot_three_cycle 0 [] (mk_runtime [VInt 1; VInt 2; VInt 3] ∅ 0) [] (VInt 1) (VInt 2) (VInt 3)
           ltac:(vm_compute; reflexivity) ltac:(vm_compute; reflexivity) eq_refl).
Defined.

Lemma dup_drop_identity_witness :
  visit_expr 4 [] [Identifier "dup"] (mk_runtime [VInt 7] ∅ 0)
    = Ok (set_stack [VInt 7; VInt 7] (mk_runtime [VInt 7] ∅ 0))
  /\ visit_expr 4 [] [Identifier "dup"; Identifier "drop"] (mk_runtime [VInt 7] ∅ 0)
    = Ok (mk_runtime [VInt 7] ∅ 0).
Proof.
  exact (dup_drop_identity 0 [] (mk_runtime [VInt 7] ∅ 0) [] (VInt 7)
           ltac:(vm_compute; reflexivity) ltac:(vm_compute; reflexivity)
           ltac:(vm_compute; reflexivity) eq_refl).
Defined.

Lemma binary_builtin_pops_operands_witness :
  visit_identifier 2 [] "-" (mk_runtime [VInt 9; VInt 5; VInt 3] ∅ 0)
  = match Ops.py_sub (VInt 5) (VInt 3) with
    | inr v => Ok (mk_runtime ([VInt 9] ++ [v]) ∅ 0)
    | inl e => Err e (mk_runtime [VInt 9] ∅ (0 + 1))
    end.
Proof.
  exact (binary_builtin_pops_operands 0 [] "-" Bstack_minus Ops.py_sub
           (mk_runtime [VInt 9; VInt 5; VInt 3] ∅ 0) [VInt 9] (VInt 5) (VInt 3)
           ltac:(vm_compute; reflexivity) ltac:(vm_compute; reflexivity)
           ltac:(vm_compute; reflexivity) eq_refl eq_refl eq_refl eq_refl).
Defined.

Lemma evaluation_keeps_scope_witness :
  scope (mk_runtime [] {[ "y" := [Literal (LInt 1)] ]} 1)
  = scope (mk_runtime [] {[ "y" := [Literal (LInt 1)] ]} 0).
Proof.
  apply (evaluation_keeps_scope 5 [] [Identifier "+"] _ _ (RunTimeError "Expected 2 items on stack but got 0")).
  right. vm_compute. reflexivity.
Defined.

Lemma evaluation_restores_depth_witness :
  recursion_depth (mk_runtime [VInt 2] {[ "y" := [Literal (LInt 2)] ]} 3)
  = recursion_depth (mk_runtime [] {[ "y" := [Literal (LInt 2)] ]} 3).
Proof.
  apply (evaluation_restores_depth 5 [] [Identifier "y"]).
  vm_compute. reflexivity.
Defined.

Lemma repl_blank_line_witness :
  repl_line 3 new_runtime "  	 " = Some new_runtime.
Proof. apply (repl_blank_line 3 new_runtime "  	 "). reflexivity. Defined.

Lemma lex_identifier_word_witness :
  Lexer.parse "abc" = Some (inr [TIdentifier "abc"]).
Proof. apply (lex_identifier_word "a" "bc"); reflexivity. Defined.

Lemma lex_plain_string_witness :
  Lexer.parse (String Lexer.squote ("hi" ++ String Lexer.squote EmptyString))
  = Some (inr [TLiteral (LStr [104; 105])]).
Proof. apply (lex_plain_string Lexer.squote "hi"); [left; reflexivity | reflexivity]. Defined.

Lemma lex_unclosed_string_witness :
  Lexer.parse (String Lexer.dquote "hi") = Some (inl (LexerError "Token error: Unexpected EOF")).
Proof. apply (lex_unclosed_string Lexer.dquote "hi"); [right; reflexivity | reflexivity]. Defined.

Lemma lex_unknown_escape_kept_witness :
  Lexer.parse (String Lexer.squote ("a" ++ String Lexer.backslash (String "q" ("b" ++ String Lexer.squote EmptyString))))
  = Some (inr [TLiteral (LStr ([97] ++ [92; 113] ++ [98]))]).
Proof.
  apply (lex_unknown_escape_kept Lexer.squote "q" "a" "b"); [left| | | | | |]; reflexivity.
Defined.

Lemma parse_simple_line_witness :
  Parser.parse 4 [TLiteral (LInt 1); TIdentifier "dup"]
  = Some (inr [SExpr [Literal (LInt 1); Identifier "dup"]]).
Proof.
  apply (parse_simple_line [inl (LInt 1); inr "dup"] 4); [discriminate | cbn; lia].
Defined.

Lemma parse_declaration_line_witness :
  Parser.parse 3 [TIdentifier "x"; TAssign; TLiteral (LInt 1)]
  = Some (inr [Decl "x" [Literal (LInt 1)]]).
Proof. apply (parse_declaration_line "x" [inl (LInt 1)] 3). cbn; lia. Defined.

Lemma lex_decimal_integer_witness :
  forall_chars Lexer.isdigit "007" = true /\ (String.length "007" <= 4300)%nat
  /\ Lexer.parse "007" = Some (inr [TLiteral (LInt 7)]).
Proof.
  split; [reflexivity|]. split; [cbn; lia|].
  exact (proj1 lex_decimal_integer "0"%char "07" eq_refl ltac:(cbn; lia)).
Defined.





Lemma parse_declaration_needs_identifier_witness :
  Parser.parse 1 [TLiteral (LInt 1); TAssign; TLiteral (LInt 2)]
  = Some (inl (ParserError "Expected TokenType.IDENTIFIER but got TokenType.LITERAL")).
Proof. apply (parse_declaration_needs_identifier (TLiteral (LInt 1)) [TLiteral (LInt 2)] 1); [lia | discriminate]. Defined.
